(** * Lektor admin: record editing view and breadcrumbs

    A shallow embedding of
    - [lektor/admin/static/js/views/EditPage.jsx] (the editing view), and
    - the [BreadCrumbs] component (breadcrumb trail of a record path),
    together with the properties of the form value resolution, of the edit
    capture, of the load life cycle and of the breadcrumb trail.

    JavaScript objects used as dictionaries are finite maps from the names
    of their own properties to values, read through [Object.prototype]; the
    component state is a record; the asynchronous loads are an explicit list
    of requests settled by events of a step function. *)

From Stdlib Require Import Strings.Ascii.
From stdpp Require Import gmap strings list fin_maps.

Open Scope string_scope.
Open Scope list_scope.

(** ** JavaScript values *)

(** The values that travel through the form: the primitives, and objects by
    reference.  Numbers are the integer-valued ones ([0] is the only falsy
    one of them); an object is always truthy, whatever it holds.  [VObj] is
    an ordinary data object (an array, a plain object): it cannot be called,
    it has no own property named [__proto__], and its prototype chain ends
    in [Object.prototype].  [VProto name] is the member [name] of
    [Object.prototype] as a property read returns it: a built-in function,
    [Object] for [constructor], and [Object.prototype] itself for
    [__proto__]. *)
Inductive value : Type :=
  | VUndefined
  | VNull
  | VBool (b : bool)
  | VNum (n : Z)
  | VStr (s : string)
  | VObj (ref : nat)
  | VProto (name : string).

#[global] Instance value_eq_dec : EqDecision value.
Proof. solve_decision. Defined.

(** ToBoolean, as used by [||], [!] and the conditional operator. *)
Definition truthy (v : value) : bool :=
  match v with
  | VUndefined | VNull => false
  | VBool b => b
  | VNum n => negb (n =? 0)%Z
  | VStr s => negb (String.eqb s "")
  | VObj _ => true
  | VProto _ => true
  end.

(** [a || b] *)
Definition js_or (a b : value) : value := if truthy a then a else b.

(** [v !== undefined] *)
Definition defined (v : value) : bool :=
  match v with VUndefined => false | _ => true end.

(** An object used as a dictionary: its own properties.  Its prototype is
    [Object.prototype], as for every object made by [{}], by [JSON.parse] or
    by [new Object()]. *)
Abbreviation obj := (gmap string value).

(** The properties of [Object.prototype]. *)
Definition objectPrototypeMembers : list string :=
  ["constructor"; "toString"; "toLocaleString"; "valueOf"; "hasOwnProperty";
   "isPrototypeOf"; "propertyIsEnumerable"; "__proto__"; "__defineGetter__";
   "__defineSetter__"; "__lookupGetter__"; "__lookupSetter__"].

Definition isPrototypeMember (k : string) : bool :=
  existsb (String.eqb k) objectPrototypeMembers.

(** What a read of [k] finds on [Object.prototype]. *)
Definition inherited (k : string) : value :=
  if isPrototypeMember k then VProto k else VUndefined.

(** [o[k]]: the own property, else the inherited one, else [undefined]. *)
Definition get (o : obj) (k : string) : value :=
  match o !! k with
  | Some v => v
  | None => inherited k
  end.

(** [o[k] = v] on an object under construction, given by its own properties
    and by whether the [__proto__] accessor of [Object.prototype] is still
    on its prototype chain.  Every other property of the chain is a writable
    data property, so the assignment makes an own property.  For
    [__proto__], unless an own property of that name exists, the setter
    runs: it makes no own property; [null] becomes the prototype, after
    which the accessor is out of reach; an object becomes the prototype, with
    the accessor still behind it; any primitive is ignored. *)
Definition assignProperty (o : obj * bool) (k : string) (v : value) : obj * bool :=
  let '(own, accessor) := o in
  if String.eqb k "__proto__" && accessor && negb (bool_decide (is_Some (own !! k)))
  then (own, match v with VNull => false | _ => true end)
  else (<[k := v]> own, accessor).

(** The outcome of a method: a value, the TypeError of reading a property of
    [null] or of calling what is not a constructor, or the Error of a failed
    [invariant] of React. *)
Inductive result (A : Type) : Type :=
  | Ok (a : A)
  | TypeError
  | InvariantViolation.
Arguments Ok {A} a.
Arguments TypeError {A}.
Arguments InvariantViolation {A}.

(** ** [String.prototype.replace] with a string pattern *)

Fixpoint dropChars (n : nat) (s : string) : string :=
  match n, s with
  | S n', String _ s' => dropChars n' s'
  | _, _ => s
  end.

(** The text before and the text after the first occurrence of [pat]. *)
Fixpoint splitFirst (pat s : string) : option (string * string) :=
  if String.prefix pat s then Some (EmptyString, dropChars (String.length pat) s)
  else
    match s with
    | EmptyString => None
    | String c s' =>
        match splitFirst pat s' with
        | Some (before, after) => Some (String c before, after)
        | None => None
        end
    end.

(** The replacement text with its [$] patterns expanded: [$$] is a dollar,
    [$&] the match, [$`] the text before it and [$'] the text after it.  A
    string pattern captures nothing, and [$] before a digit or any other
    character stays as it is. *)
Fixpoint expandReplacement (matched before after r : string) : string :=
  match r with
  | EmptyString => EmptyString
  | String c r1 =>
      if Ascii.eqb c "$" then
        match r1 with
        | String d r2 =>
            if Ascii.eqb d "$" then String "$" (expandReplacement matched before after r2)
            else if Ascii.eqb d "&" then matched +:+ expandReplacement matched before after r2
            else if Ascii.eqb d "`" then before +:+ expandReplacement matched before after r2
            else if Ascii.eqb d "'" then after +:+ expandReplacement matched before after r2
            else String c (expandReplacement matched before after r1)
        | EmptyString => String c EmptyString
        end
      else String c (expandReplacement matched before after r1)
  end.

(** [s.replace(pat, r)] for strings [pat] and [r]: the first occurrence
    only. *)
Definition replaceFirst (s pat r : string) : string :=
  match splitFirst pat s with
  | Some (before, after) => before +:+ expandReplacement pat before after r +:+ after
  | None => s
  end.

(** ** Data of the [/rawrecord] endpoint *)

Record Field : Type := mkField {
  field_name : string;
  field_label : string;
  field_type : string
}.

#[global] Instance Field_eq_dec : EqDecision Field.
Proof. solve_decision. Defined.

Record DataModel : Type := mkDataModel { fields : list Field }.

Record RecordInfo : Type := mkRecordInfo {
  ri_exists : bool;
  ri_label : string;
  ri_id : string
}.

Record Response : Type := mkResponse {
  data : obj;
  datamodel : DataModel;
  record_info : RecordInfo
}.

(** ** Widgets *)

(** A widget component, as far as the editing view looks at it: the two
    optional static conversion hooks. *)
Record Widget : Type := mkWidget {
  serializeValue : option (value -> value);
  deserializeValue : option (value -> value)
}.

(** ** The editing view *)

Module EditPage.

(** [isHiddenField(name)] *)
Definition isHiddenField (name : string) : bool :=
  if String.eqb name "_path" then true
  else if String.eqb name "_gid" then true
  else if String.eqb name "_model" then true
  else if String.eqb name "_attachment_for" then true
  else if String.eqb name "_attachment_type" then true
  else false.

(** The objects the view allocates itself ([{}] in the load callback, the
    copy made by [React.addons.update]) live in a heap and [recordData] holds
    a reference, so that an alias taken before an edit can be read after it.
    The objects of a response are never written by the view and are held by
    value. *)
Abbreviation heap := (list obj).

Definition alloc (h : heap) (o : obj) : heap * nat := (h ++ [o], length h).

(** [this.state] *)
Record State : Type := mkState {
  recordInitialData : option obj;
  recordData : option nat;
  recordDataModel : option DataModel;
  recordInfo : option RecordInfo
}.

(** [getInitialState()] *)
Definition getInitialState : State :=
  {| recordInitialData := None;
     recordData := None;
     recordDataModel := None;
     recordInfo := None |}.

(** A load issued by [utils.loadData('/rawrecord', {path: ...})]: the path it
    was issued for, and whether its promise was settled. *)
Record Request : Type := mkRequest {
  req_path : string;
  req_settled : bool
}.

(** The mounted component in its environment: the heap, [this.state], the
    record path of the routing context (what [this.getRecordPath()] returns)
    and the loads issued so far, oldest first. *)
Record World : Type := mkWorld {
  objects : heap;
  state : State;
  route : string;
  requests : list Request
}.

(** [this.state.recordData], dereferenced. *)
Definition pendingEdits (w : World) : option obj :=
  l ← recordData (state w); objects w !! l.

(** [syncEditor()]: issues a load for the current record path.  The promise
    gets a fulfilment handler only; the state is not touched here. *)
Definition syncEditor (w : World) : World :=
  {| objects := objects w;
     state := state w;
     route := route w;
     requests := requests w ++ [mkRequest (route w) false] |}.

(** The fulfilment handler of [syncEditor]: [this.setState({...})] with the
    three parts of the response and a new empty [recordData]. *)
Definition onLoaded (resp : Response) (w : World) : World :=
  let '(h, l) := alloc (objects w) ∅ in
  {| objects := h;
     state := {| recordInitialData := Some (data resp);
                 recordData := Some l;
                 recordDataModel := Some (datamodel resp);
                 recordInfo := Some (record_info resp) |};
     route := route w;
     requests := requests w |}.

(** The view as mounted at record path [p]: the initial state, and
    [componentDidMount] has called [syncEditor]. *)
Definition mount (p : string) : World :=
  syncEditor {| objects := []; state := getInitialState; route := p; requests := [] |}.

(** [componentWillReceiveProps(nextProps)]: [nextProps] is not looked at. *)
Definition componentWillReceiveProps {Props : Type} (nextProps : Props) (w : World) : World :=
  syncEditor w.

(** [getLabel()] *)
Definition getLabel (st : State) : option string :=
  match recordInfo st with
  | None => None
  | Some ri => if ri_exists ri then Some (ri_label ri) else Some (ri_id ri)
  end.

(** The commands of [React.addons.update]. *)
Definition updateCommands : list string :=
  ["$push"; "$unshift"; "$splice"; "$set"; "$merge"; "$apply"].

Definition isCommand (k : string) : bool := existsb (String.eqb k) updateCommands.

(** [shallowCopy(x)] of [React.addons.update] for an object: [new
    x.constructor()], which throws unless [x.constructor] is [Object], read
    from the prototype when [x] has no own property of that name; then
    [Object.assign] assigns every own property of [x] to the new object.  An
    own [__proto__], which no object made by the view has, would go to the
    accessor and make no own property. *)
Definition shallowCopy (x : obj) : result obj :=
  match get x "constructor" with
  | VProto c => if String.eqb c "constructor" then Ok (delete "__proto__" x) else TypeError
  | _ => TypeError
  end.

(** [React.addons.update(value, updates)] for the [updates] of
    [onValueChange]: an empty object to which [updates[name] = {$set: v}]
    was assigned.  The first argument is [target], [None] for [null].

    - For [$set] the spec itself is a [$set] command with one key: the
      result is its argument, the object [{$set: v}], and the target is not
      looked at.
    - Otherwise the target is copied first.  [$merge] assigns the properties
      of [{$set: v}] to the copy, which has to be an object; [$push],
      [$unshift] and [$splice] want an array for the target, and [$apply] a
      function for its argument: their invariants fail.
    - [__proto__] went to the accessor when it was assigned: the spec has no
      own key, and the inherited [$set] that the loop over its keys finds is
      skipped as a command.  The result is the copy.
    - For any other name the loop assigns [update(target[name], {$set: v})],
      that is [v], to the copy under that name; a target that is [null]
      has no properties to read. *)
Definition update (target : option obj) (name : string) (v : value) : result (option obj) :=
  if String.eqb name "$set" then Ok (Some {[ "$set" := v ]})
  else
    match target with
    | Some x =>
        match shallowCopy x with
        | Ok nextValue =>
            if String.eqb name "$merge" then Ok (Some (<["$set" := v]> nextValue))
            else if isCommand name then InvariantViolation
            else if String.eqb name "__proto__" then Ok (Some nextValue)
            else Ok (Some (<[name := v]> nextValue))
        | TypeError => TypeError
        | InvariantViolation => InvariantViolation
        end
    | None =>
        if isCommand name then InvariantViolation
        else if String.eqb name "__proto__" then Ok None
        else TypeError
    end.

(** [onValueChange(field, value)]: the result of [React.addons.update], a
    new object when it is one, becomes [recordData]; [setState] replaces
    nothing else. *)
Definition onValueChange (f : Field) (v : value) (w : World) : result World :=
  match update (pendingEdits w) (field_name f) (js_or v (VStr "")) with
  | Ok (Some rd) =>
      let '(h, l) := alloc (objects w) rd in
      Ok {| objects := h;
            state := {| recordInitialData := recordInitialData (state w);
                        recordData := Some l;
                        recordDataModel := recordDataModel (state w);
                        recordInfo := recordInfo (state w) |};
            route := route w;
            requests := requests w |}
  | Ok None =>
      Ok {| objects := objects w;
            state := {| recordInitialData := recordInitialData (state w);
                        recordData := None;
                        recordDataModel := recordDataModel (state w);
                        recordInfo := recordInfo (state w) |};
            route := route w;
            requests := requests w |}
  | TypeError => TypeError
  | InvariantViolation => InvariantViolation
  end.

Section Widgets.

(** [widgets.getWidgetComponentWithFallback(type)], of the widget module,
    and [utils.gettext]. *)
Variable getWidgetComponentWithFallback : string -> Widget.
Variable gettext : string -> string.

(** The value [getValues] computes for one field. *)
Definition submitValue (rd initial : obj) (f : Field) : value :=
  let value := get rd (field_name f) in
  if defined value then
    match serializeValue (getWidgetComponentWithFallback (field_type f)) with
    | Some ser => ser value
    | None => value
    end
  else get initial (field_name f).

(** [getValues()]: the own properties of [rv], which starts as [{}] and is
    assigned once for each field. *)
Definition getValues (w : World) : result obj :=
  match recordDataModel (state w), pendingEdits w, recordInitialData (state w) with
  | Some dm, Some rd, Some initial =>
      Ok (fst (foldl (fun rv f => assignProperty rv (field_name f) (submitValue rd initial f))
                 (∅, true) (fields dm)))
  | _, _, _ => TypeError
  end.

(** One rendered [<dl>]: its key and class, the [<dt>] label, and the props
    of the widget element.  The [onChange] prop is [onValueChange] bound to
    the field, which is [dl_field]. *)
Record FormField : Type := mkFormField {
  dl_key : string;
  dl_className : string;
  dl_label : string;
  dl_widget : Widget;
  dl_value : value;
  dl_type : string;
  dl_field : Field
}.

(** The value shown for one field that is not hidden. *)
Definition displayValue (rd initial : obj) (f : Field) : value :=
  let Widget := getWidgetComponentWithFallback (field_type f) in
  let value := get rd (field_name f) in
  if defined value then value
  else
    let value := js_or (get initial (field_name f)) (VStr "") in
    match deserializeValue Widget with
    | Some deser => deser value
    | None => value
    end.

(** [field.name.substr(0, 1) == '_'] *)
Definition isSystemField (name : string) : bool :=
  String.eqb (String.substring 0 1 name) "_".

(** The callback of [fields.map] in [renderFormFields]: [None] is [null]. *)
Definition renderField (rd initial : obj) (f : Field) : option FormField :=
  if isHiddenField (field_name f) then None
  else
    Some {| dl_key := field_name f;
            dl_className := if isSystemField (field_name f)
                            then "field system-field" else "field";
            dl_label := field_label f;
            dl_widget := getWidgetComponentWithFallback (field_type f);
            dl_value := displayValue rd initial f;
            dl_type := field_type f;
            dl_field := f |}.

(** [renderFormFields()]: the children of the [<div>]. *)
Definition renderFormFields (w : World) : result (list (option FormField)) :=
  match recordDataModel (state w), pendingEdits w, recordInitialData (state w) with
  | Some dm, Some rd, Some initial => Ok (renderField rd initial <$> fields dm)
  | _, _, _ => TypeError
  end.

(** What [render] returns when it is not [null]: the text of the heading,
    and the form. *)
Record Page : Type := mkPage {
  page_heading : string;
  page_form : list (option FormField)
}.

(** [gettext('Edit “%s”').replace('%s', this.getLabel())]; a label that is
    [null] would be replaced as the string ["null"]. *)
Definition heading (st : State) : string :=
  replaceFirst (gettext "Edit “%s”") "%s"
    (match getLabel st with Some label => label | None => "null" end).

(** [render()]: [Ok None] is [null]. *)
Definition render (w : World) : result (option Page) :=
  match recordInfo (state w) with
  | None => Ok None
  | Some _ =>
      match renderFormFields w with
      | Ok form => Ok (Some {| page_heading := heading (state w); page_form := form |})
      | TypeError => TypeError
      | InvariantViolation => InvariantViolation
      end
  end.

(** The fields whose [onValueChange] handler is bound in the rendered form:
    the only callers of [onValueChange]. *)
Definition handlers (w : World) : list Field :=
  match render w with
  | Ok (Some page) => dl_field <$> omap id (page_form page)
  | _ => []
  end.

(** *** The event loop *)

(** What can happen to the mounted view: the routing context moves to record
    path [p] (a new one or the same again) and the view receives props; the
    promise of load number [i] is fulfilled with a response, or is rejected;
    a rendered widget reports a new value for its field. *)
Inductive Event : Type :=
  | ReceiveProps (p : string)
  | Resolve (i : nat) (resp : Response)
  | Reject (i : nat)
  | Change (f : Field) (v : value).

Definition with_route (p : string) (w : World) : World :=
  {| objects := objects w; state := state w; route := p; requests := requests w |}.

(** Load number [i] settles: it has to be one that is still in flight. *)
Definition settle (i : nat) (w : World) : option World :=
  match requests w !! i with
  | Some r =>
      if req_settled r then None
      else Some {| objects := objects w;
                   state := state w;
                   route := route w;
                   requests := <[i := mkRequest (req_path r) true]> (requests w) |}
  | None => None
  end.

(** One turn of the event loop; [None] when the event cannot happen in [w].
    A rejected promise has no handler to run: [syncEditor] passes [then] a
    single callback.  A change handler that throws has not called
    [setState]: the world is as before. *)
Definition step (w : World) (e : Event) : option World :=
  match e with
  | ReceiveProps p => Some (componentWillReceiveProps p (with_route p w))
  | Resolve i resp => onLoaded resp <$> settle i w
  | Reject i => settle i w
  | Change f v =>
      if decide (f ∈ handlers w) then
        match onValueChange f v w with
        | Ok w' => Some w'
        | _ => Some w
        end
      else None
  end.

Fixpoint run (w : World) (t : list Event) : option World :=
  match t with
  | [] => Some w
  | e :: t' =>
      match step w e with
      | Some w' => run w' t'
      | None => None
      end
  end.

End Widgets.

Definition is_resolve (e : Event) : bool :=
  match e with Resolve _ _ => true | _ => false end.

(** Whether a string has a dollar sign in it. *)
Fixpoint hasDollar (s : string) : bool :=
  match s with
  | EmptyString => false
  | String c s' => Ascii.eqb c "$" || hasDollar s'
  end.

(** The record paths of the props received in a trace, in order. *)
Definition propsPaths (t : list Event) : list string :=
  omap (fun e => match e with ReceiveProps p => Some p | _ => None end) t.

(** The record state is the one of a response: its initial data, its data
    model and its record info. *)
Definition reflects (resp : Response) (st : State) : Prop :=
  recordInitialData st = Some (data resp) /\
  recordDataModel st = Some (datamodel resp) /\
  recordInfo st = Some (record_info resp).

(** A world in which a response has been applied: every part of the state
    is set, [recordData] refers to an object of the heap, no hidden field
    has a pending edit, no pending edit is [undefined] and there is no own
    property named [__proto__]. *)
Definition loaded (w : World) : Prop :=
  exists initial l rd dm ri,
    state w = mkState (Some initial) (Some l) (Some dm) (Some ri) /\
    objects w !! l = Some rd /\
    (forall k, isHiddenField k = true -> rd !! k = None) /\
    (forall k x, rd !! k = Some x -> x <> VUndefined) /\
    rd !! "__proto__" = None.

(** The displayed value in the words of the specification: the pending edit
    when there is one, else the stored value, through [deserializeValue]
    when the widget has it. *)
Definition specDisplayValue (getWidget : string -> Widget) (rd initial : obj) (f : Field)
    : value :=
  let value := get rd (field_name f) in
  if defined value then value
  else
    match deserializeValue (getWidget (field_type f)) with
    | Some deser => deser (get initial (field_name f))
    | None => get initial (field_name f)
    end.

End EditPage.

(** ** Data of the [/pathinfo] endpoint *)

Record Segment : Type := mkSegment {
  seg_path : string;
  seg_id : string;
  seg_label : string;
  seg_exists : bool;
  seg_can_have_children : bool
}.

(** ** The breadcrumbs *)

Module BreadCrumbs.

(** [this.state.recordPathInfo] when it is not [null]. *)
Record PathInfo : Type := mkPathInfo {
  path : string;
  segments : list Segment
}.

(** [this.state] *)
Record State : Type := mkState { recordPathInfo : option PathInfo }.

(** The state set by the constructor. *)
Definition initialState : State := {| recordPathInfo := None |}.

(** [updateCrumbs()], up to the load: with no record path the path info is
    cleared and nothing is loaded; with a record path the state is left as
    it is and a load of [/pathinfo] is issued for it ([Some path]). *)
Definition updateCrumbs (recordPath : option string) (st : State) : State * option string :=
  match recordPath with
  | None => ({| recordPathInfo := None |}, None)
  | Some path => (st, Some path)
  end.

(** The fulfilment handler of [updateCrumbs]: the path the load was issued
    for and the segments of the response. *)
Definition onPathInfo (path : string) (resp_segments : list Segment) (st : State) : State :=
  {| recordPathInfo := Some {| path := path; segments := resp_segments |} |}.

(** A [<Link to=... params={{path: ...}}>text</Link>]. *)
Record Link : Type := mkLink {
  to : string;
  params_path : option string;
  text : string
}.

(** The children of the [<ul>]. *)
Inductive Node : Type :=
  | Child (n : nat)
  | Li (key : option string) (className : option string) (link : Link)
  | Text (s : string)
  | Meta (publish : Link) (close : string).

#[global] Instance Link_eq_dec : EqDecision Link.
Proof. solve_decision. Defined.

#[global] Instance Node_eq_dec : EqDecision Node.
Proof. solve_decision. Defined.

Section Render.

(** Of [RecordComponent] and [i18n]: the alt-qualified URL path of a record
    path, whether the preview is the active view, and the translations. *)
Variable getUrlRecordPathWithAlt : string -> string.
Variable isRecordPreviewActive : bool.
Variable trans : string -> string.

(** [this.props.children] *)
Variable children : list nat.

Definition target : string := if isRecordPreviewActive then "preview" else "edit".

(** The callback of [segments.map]: the [<li>] of one segment. *)
Definition crumb (item : Segment) : Node :=
  let urlPath := getUrlRecordPathWithAlt (seg_path item) in
  let '(label, className) :=
    if negb (seg_exists item)
    then (seg_id item, "record-crumb missing-record-crumb")
    else (seg_label item, "record-crumb") in
  Li (Some (seg_path item)) (Some className) (mkLink target (Some urlPath) label).

(** [segments.map(...)], with the assignment to [lastItem] it makes on the
    way: the list of crumbs and the last value of [lastItem]. *)
Definition mapSegments (segs : list Segment) (lastItem : option Segment)
    : list Node * option Segment :=
  foldl (fun '(crumbs, _) item => (crumbs ++ [crumb item], Some item)) ([], lastItem) segs.

(** The single [<li>] shown when there is no path info. *)
Definition fallback : Node :=
  Li None None (mkLink "edit" (Some "root") (trans "BACK_TO_OVERVIEW")).

(** The first part of [render]: [crumbs] and [lastItem]. *)
Definition crumbsAndLast (st : State) : list Node * option Segment :=
  match recordPathInfo st with
  | Some info => mapSegments (segments info) None
  | None => ([fallback], None)
  end.

(** The breadcrumb trail. *)
Definition trail (st : State) : list Node := fst (crumbsAndLast st).

(** The [<li className="new-record-crumb">], when it is rendered. *)
Definition newRecordCrumb (lastItem : option Segment) : list Node :=
  match lastItem with
  | Some item =>
      if seg_can_have_children item then
        [Li None (Some "new-record-crumb")
            (mkLink "add-child" (Some (getUrlRecordPathWithAlt (seg_path item))) "+")]
      else []
  | None => []
  end.

(** [render()]: the children of the [<ul>], in order. *)
Definition render (st : State) : list Node :=
  let '(crumbs, lastItem) := crumbsAndLast st in
  (Child <$> children) ++ crumbs ++ newRecordCrumb lastItem ++
  [Text " "; Meta (mkLink "publish" None (trans "PUBLISH")) (trans "RETURN_TO_WEBSITE")].

(** Whether a node is an add-child entry. *)
Definition isAddChild (n : Node) : bool :=
  match n with
  | Li _ _ l => String.eqb (to l) "add-child"
  | _ => false
  end.

End Render.

(** *** Leaving the admin *)

Section Close.

(** [utils.getCanonicalUrl], and the [url_path] property of a segment of the
    response, which the trail does not read. *)
Variable getCanonicalUrl : string -> string.
Variable url_path : Segment -> string.

(** What a click on the link back to the website does: [Navigate href] when
    [window.location.href] was assigned and the default action of the event
    prevented; [FollowHref] when the handler did nothing and the anchor's own
    [href="/"] is followed. *)
Inductive Click : Type :=
  | Navigate (href : string)
  | FollowHref.

(** [onCloseClick(e)] *)
Definition onCloseClick (st : State) : result Click :=
  match recordPathInfo st with
  | None => TypeError
  | Some info =>
      let segs := segments info in
      if (0 <? length segs)%nat then
        match segs !! (length segs - 1) with
        | Some item => Ok (Navigate (getCanonicalUrl (url_path item)))
        | None => TypeError
        end
      else Ok FollowHref
  end.

End Close.

(** *** The life cycle of the breadcrumbs *)

(** A load issued by [utils.loadData('/pathinfo', {path: path})]. *)
Record Load : Type := mkLoad {
  load_path : string;
  load_settled : bool
}.

(** The mounted component: [this.state], what [this.getRecordPath()]
    returns ([None] is [null]) and the loads issued so far, oldest first. *)
Record Host : Type := mkHost {
  host_state : State;
  host_path : option string;
  host_loads : list Load
}.

(** A call of [updateCrumbs()] with the record path being [recordPath]. *)
Definition callUpdateCrumbs (recordPath : option string) (h : Host) : Host :=
  let '(st, issued) := updateCrumbs recordPath (host_state h) in
  {| host_state := st;
     host_path := recordPath;
     host_loads := host_loads h ++
                   match issued with
                   | Some p => [mkLoad p false]
                   | None => []
                   end |}.

(** The constructor followed by [componentDidMount]. *)
Definition mounted (recordPath : option string) : Host :=
  callUpdateCrumbs recordPath
    {| host_state := initialState; host_path := recordPath; host_loads := [] |}.

(** New props with the record path being [recordPath] afterwards; the
    promise of load number [i] fulfilled with the segments of a response, or
    rejected. *)
Inductive HostEvent : Type :=
  | NewProps (recordPath : option string)
  | PathInfoLoaded (i : nat) (resp_segments : list Segment)
  | PathInfoFailed (i : nat).

(** One turn of the event loop; [None] when the event cannot happen.  The
    promise has a fulfilment handler only. *)
Definition hostStep (h : Host) (e : HostEvent) : option Host :=
  match e with
  | NewProps recordPath => Some (callUpdateCrumbs recordPath h)
  | PathInfoLoaded i resp_segments =>
      match host_loads h !! i with
      | Some l =>
          if load_settled l then None
          else Some {| host_state := onPathInfo (load_path l) resp_segments (host_state h);
                       host_path := host_path h;
                       host_loads := <[i := mkLoad (load_path l) true]> (host_loads h) |}
      | None => None
      end
  | PathInfoFailed i =>
      match host_loads h !! i with
      | Some l =>
          if load_settled l then None
          else Some {| host_state := host_state h;
                       host_path := host_path h;
                       host_loads := <[i := mkLoad (load_path l) true]> (host_loads h) |}
      | None => None
      end
  end.

Fixpoint hostRun (h : Host) (t : list HostEvent) : option Host :=
  match t with
  | [] => Some h
  | e :: t' =>
      match hostStep h e with
      | Some h' => hostRun h' t'
      | None => None
      end
  end.


Definition is_pathInfoLoaded (e : HostEvent) : bool :=
  match e with PathInfoLoaded _ _ => true | _ => false end.

(** The record paths that are not [null] among the props received in a
    trace, in order. *)
Definition propsRecordPaths (t : list HostEvent) : list string :=
  omap (fun e => match e with NewProps recordPath => recordPath | _ => None end) t.

(** The links of a node of the list. *)
Definition links (n : Node) : list Link :=
  match n with
  | Li _ _ l => [l]
  | Meta publish _ => [publish]
  | _ => []
  end.

End BreadCrumbs.

(** ** The route table *)

Module Main.

(** The route handlers required by [main.jsx]. *)
Inductive Handler : Type :=
  | App | Dash | EditPage | DeletePage | PreviewPage | AddChildPage
  | AddAttachmentPage | BadRoute.

(** A [<Route>], [<DefaultRoute>] or [<NotFoundRoute>] element with its
    child routes. *)
Inductive RouteNode : Type :=
  | Route (name : string) (path : string) (handler : Handler) (children : list RouteNode)
  | DefaultRoute (handler : Handler)
  | NotFoundRoute (handler : Handler).

(** [routes], with [$LEKTOR_CONFIG.admin_root] as [admin_root]. *)
Definition routes (admin_root : string) : RouteNode :=
  Route "dash" admin_root App
    [ Route "edit" ":path/edit" EditPage [];
      Route "delete" ":path/delete" DeletePage [];
      Route "preview" ":path/preview" PreviewPage [];
      Route "add-child" ":path/add-child" AddChildPage [];
      Route "add-attachment" ":path/upload" AddAttachmentPage [];
      DefaultRoute Dash;
      NotFoundRoute BadRoute ].

(** The names a [<Link to=...>] can refer to: the names of the routes of the
    tree. *)
Fixpoint routeNames (r : RouteNode) : list string :=
  match r with
  | Route name _ _ children => name :: flat_map routeNames children
  | DefaultRoute _ | NotFoundRoute _ => []
  end.

End Main.

(** ** Sample data *)

Module Sample.

Import EditPage.

(** A registry with one widget that converts (numbers to and from their
    string form are stood for by a tag on the string) and a fallback that
    has no conversion hooks. *)
Definition tagged (tag : string) (v : value) : value :=
  match v with
  | VStr s => VStr (tag +:+ s)
  | _ => v
  end.

Definition registry (type : string) : Widget :=
  if String.eqb type "integer"
  then {| serializeValue := Some (tagged "s:"); deserializeValue := Some (tagged "d:") |}
  else {| serializeValue := None; deserializeValue := None |}.

Definition title : Field := mkField "title" "Title" "string".
Definition count : Field := mkField "count" "Count" "number".
Definition hiddenPath : Field := mkField "_path" "Path" "string".

Definition respA : Response :=
  {| data := {[ "title" := VStr "A" ]};
     datamodel := mkDataModel [title];
     record_info := mkRecordInfo true "Page A" "a" |}.

Definition respB : Response :=
  {| data := {[ "title" := VStr "B"; "_path" := VStr "/b" ]};
     datamodel := mkDataModel [hiddenPath; title];
     record_info := mkRecordInfo true "Page B" "b" |}.

Definition respCount : Response :=
  {| data := {[ "count" := VNum 0 ]};
     datamodel := mkDataModel [count];
     record_info := mkRecordInfo true "Counter" "c" |}.

(** A world in which the record of [respA] is loaded and nothing is edited. *)
Definition loadedA : World :=
  onLoaded respA
    {| objects := [];
       state := getInitialState;
       route := "/a";
       requests := [mkRequest "/a" true] |}.

Definition root : Segment := mkSegment "/" "" "Welcome" true true.
Definition blog : Segment := mkSegment "/blog" "blog" "Blog" true true.
Definition post : Segment := mkSegment "/blog/post" "post" "Post" false false.

End Sample.

Module Fixtures.

Import EditPage.

Definition amount : Field := mkField "amount" "Amount" "integer".

(** A catalogue without translations. *)
Definition gettext (s : string) : string := s.



(** [Sample.loadedA] after the title was set to ["T"]. *)
Definition editedA : World :=
  match onValueChange Sample.title (VStr "T") Sample.loadedA with
  | Ok w => w
  | _ => Sample.loadedA
  end.

(** A record that does not exist yet, with data under a name the schema
    does not list. *)
Definition respShop : Response :=
  {| data := {[ "title" := VStr "T"; "amount" := VStr "3"; "legacy" := VStr "x" ]};
     datamodel := mkDataModel [Sample.title; amount];
     record_info := mkRecordInfo false "" "shop" |}.

Definition loadedShop : World :=
  onLoaded respShop
    {| objects := [];
       state := getInitialState;
       route := "/shop";
       requests := [mkRequest "/shop" true] |}.

(** [loadedShop] after the amount was set to ["7"]. *)
Definition editedShop : World :=
  match onValueChange amount (VStr "7") loadedShop with
  | Ok w => w
  | _ => loadedShop
  end.


End Fixtures.

(** ** Properties of the editing view *)

Module EditPageFacts.

Import EditPage.

(** *** Edit capture *)

Lemma js_or_empty_defined (v : value) : js_or v (VStr "") <> VUndefined.
Proof.
  unfold js_or. destruct (truthy v) eqn:E; [|discriminate].
  intros ->. discriminate E.
Qed.

Lemma js_or_empty_cases (v : value) :
  js_or v (VStr "") = if truthy v then v else VStr "".
Proof. reflexivity. Qed.

Lemma pendingEdits_alloc (h : heap) (o : obj) (st : State) (r : string) (q : list Request) :
  recordData st = Some (length h) ->
  pendingEdits (mkWorld (h ++ [o]) st r q) = Some o.
Proof.
  intros Hl. unfold pendingEdits. simpl. rewrite Hl. simpl.
  rewrite lookup_app_r by lia. by rewrite Nat.sub_diag.
Qed.

Lemma isCommand_false (name : string) :
  isCommand name = false ->
  String.eqb name "$set" = false /\ String.eqb name "$merge" = false.
Proof.
  unfold isCommand, updateCommands. simpl. intros H.
  repeat (apply orb_false_elim in H as [? H]). done.
Qed.

Lemma shallowCopy_plain (x : obj) :
  get x "constructor" = VProto "constructor" ->
  x !! "__proto__" = None ->
  shallowCopy x = Ok x.
Proof. intros Hc Hp. unfold shallowCopy. rewrite Hc. simpl. by rewrite delete_id. Qed.

(** The update for a name that is neither a command nor [__proto__], of an
    object that can be copied: one key is set in the copy. *)
Lemma update_plain (rd : obj) (name : string) (v : value) :
  isCommand name = false ->
  name <> "__proto__" ->
  get rd "constructor" = VProto "constructor" ->
  rd !! "__proto__" = None ->
  update (Some rd) name v = Ok (Some (<[name := v]> rd)).
Proof.
  intros Hcmd Hproto Hc Hp. unfold update.
  destruct (isCommand_false name Hcmd) as [-> ->].
  rewrite (shallowCopy_plain rd Hc Hp), Hcmd.
  apply String.eqb_neq in Hproto. by rewrite Hproto.
Qed.

Lemma onValueChange_ok (f : Field) (v : value) (w : World) (rd : obj) :
  pendingEdits w = Some rd ->
  isCommand (field_name f) = false ->
  field_name f <> "__proto__" ->
  get rd "constructor" = VProto "constructor" ->
  rd !! "__proto__" = None ->
  onValueChange f v w =
    Ok {| objects := objects w ++ [<[field_name f := js_or v (VStr "")]> rd];
          state := {| recordInitialData := recordInitialData (state w);
                      recordData := Some (length (objects w));
                      recordDataModel := recordDataModel (state w);
                      recordInfo := recordInfo (state w) |};
          route := route w;
          requests := requests w |}.
Proof.
  intros Hrd Hcmd Hproto Hc Hp. unfold onValueChange.
  by rewrite Hrd, (update_plain rd _ _ Hcmd Hproto Hc Hp).
Qed.

(** What a call that returns has done, whatever the name of the field: a
    new object is the pending edits, and it is one of four. *)
Lemma onValueChange_inv (f : Field) (v : value) (w w' : World) (rd : obj) :
  pendingEdits w = Some rd ->
  rd !! "__proto__" = None ->
  onValueChange f v w = Ok w' ->
  exists rd',
    w' = {| objects := objects w ++ [rd'];
            state := {| recordInitialData := recordInitialData (state w);
                        recordData := Some (length (objects w));
                        recordDataModel := recordDataModel (state w);
                        recordInfo := recordInfo (state w) |};
            route := route w;
            requests := requests w |} /\
    (rd' = {[ "$set" := js_or v (VStr "") ]} \/
     rd' = <["$set" := js_or v (VStr "")]> rd \/
     rd' = rd \/
     (rd' = <[field_name f := js_or v (VStr "")]> rd /\
      isCommand (field_name f) = false /\ field_name f <> "__proto__")).
Proof.
  intros Hrd Hp. unfold onValueChange, update. rewrite Hrd.
  destruct (String.eqb (field_name f) "$set").
  { simpl. intros [= <-]. eexists. split; [done|]. by left. }
  unfold shallowCopy. destruct (get rd "constructor") as [| | | | | |c]; try discriminate.
  destruct (String.eqb c "constructor"); [|discriminate]. rewrite (delete_id _ _ Hp).
  destruct (String.eqb (field_name f) "$merge").
  { simpl. intros [= <-]. eexists. split; [done|]. right. by left. }
  destruct (isCommand (field_name f)) eqn:Hcmd; [discriminate|].
  destruct (String.eqb (field_name f) "__proto__") eqn:Hproto.
  { simpl. intros [= <-]. eexists. split; [done|]. right. right. by left. }
  simpl. intros [= <-]. apply String.eqb_neq in Hproto.
  eexists. split; [done|]. right. right. right. done.
Qed.

Lemma onValueChange_record (f : Field) (v : value) (w w' : World) :
  onValueChange f v w = Ok w' ->
  recordInitialData (state w') = recordInitialData (state w) /\
  recordDataModel (state w') = recordDataModel (state w) /\
  recordInfo (state w') = recordInfo (state w) /\
  route w' = route w /\
  requests w' = requests w.
Proof.
  unfold onValueChange.
  destruct (update _ _ _) as [[rd|]| |]; try discriminate; simpl; by intros [= <-].
Qed.

(** *** Form value resolution *)

Section Resolution.

Variable getWidget : string -> Widget.

Lemma renderField_hidden (rd initial : obj) (f : Field) :
  isHiddenField (field_name f) = true -> renderField getWidget rd initial f = None.
Proof. intros H. unfold renderField. by rewrite H. Qed.

Lemma renderField_Some (rd initial : obj) (f : Field) (dl : FormField) :
  renderField getWidget rd initial f = Some dl ->
  isHiddenField (field_name f) = false /\
  dl_field dl = f /\ dl_key dl = field_name f /\
  dl_value dl = displayValue getWidget rd initial f.
Proof.
  unfold renderField. destruct (isHiddenField (field_name f)); [discriminate|].
  intros [= <-]. done.
Qed.

Lemma renderFormFields_ok (w : World) (dm : DataModel) (rd initial : obj) :
  recordDataModel (state w) = Some dm ->
  pendingEdits w = Some rd ->
  recordInitialData (state w) = Some initial ->
  renderFormFields getWidget w = Ok (renderField getWidget rd initial <$> fields dm).
Proof. intros Hdm Hrd Hin. unfold renderFormFields. by rewrite Hdm, Hrd, Hin. Qed.

(** C4, as amended: for every field of the schema that is not hidden, the
    rendered entry shows [pendingEdits[name]] as it is when that read is not
    [undefined] (the own entry or, for a name that [Object.prototype] has,
    the inherited member); otherwise it shows [initialData[name] || ''],
    the stored value when that is truthy and the empty string when it is
    falsy or absent, passed through the widget's [deserializeValue] when
    there is one.  So for the field [title] with ["A"] stored and a widget
    that has no [deserializeValue], a pending ["B"] is shown as ["B"] and no
    pending edit shows ["A"]. *)
Theorem displayed_value (w : World) (dm : DataModel) (rd initial : obj) (i : nat) (f : Field) :
  recordDataModel (state w) = Some dm ->
  pendingEdits w = Some rd ->
  recordInitialData (state w) = Some initial ->
  fields dm !! i = Some f ->
  isHiddenField (field_name f) = false ->
  exists form dl,
    renderFormFields getWidget w = Ok form /\
    form !! i = Some (Some dl) /\
    dl_key dl = field_name f /\
    dl_widget dl = getWidget (field_type f) /\
    (get rd (field_name f) <> VUndefined -> dl_value dl = get rd (field_name f)) /\
    (get rd (field_name f) = VUndefined ->
       dl_value dl =
         let raw := if truthy (get initial (field_name f))
                    then get initial (field_name f) else VStr "" in
         match deserializeValue (getWidget (field_type f)) with
         | Some deser => deser raw
         | None => raw
         end) /\
    (field_name f = "title" ->
     initial !! "title" = Some (VStr "A") ->
     deserializeValue (getWidget (field_type f)) = None ->
       (rd !! "title" = Some (VStr "B") -> dl_value dl = VStr "B") /\
       (rd !! "title" = None -> dl_value dl = VStr "A")).
Proof.
  intros Hdm Hrd Hin Hf Hhid.
  eexists _, _. split; [by eapply renderFormFields_ok|].
  split.
  { rewrite list_lookup_fmap, Hf. simpl. unfold renderField. by rewrite Hhid. }
  simpl. split; [done|]. split; [done|].
  unfold displayValue, js_or.
  split; [|split].
  - intros Hdef. destruct (get rd (field_name f)); done.
  - intros ->. done.
  - intros -> HA Hnone. unfold get. rewrite HA. simpl. rewrite Hnone. split.
    + by intros ->.
    + by intros ->.
Qed.

End Resolution.

Lemma displayed_value_witness :
  exists form dl,
    renderFormFields Sample.registry Sample.loadedA = Ok form /\
    form !! 0 = Some (Some dl) /\
    dl_value dl = VStr "A".
Proof.
  destruct (displayed_value Sample.registry Sample.loadedA
              (mkDataModel [Sample.title]) ∅ {[ "title" := VStr "A" ]} 0 Sample.title)
    as (form & dl & Hform & Hdl & _ & _ & _ & _ & Hex);
    [reflexivity | reflexivity | reflexivity | reflexivity | reflexivity |].
  exists form, dl. split; [exact Hform|]. split; [exact Hdl|].
  apply Hex; reflexivity.
Defined.

(** C4 as stated fails where the stored value is falsy: a stored [0] under a
    widget without [deserializeValue] is shown as the empty string, not as
    the raw stored value. *)
Lemma displayed_value_counterexample :
  dl_value <$> renderField Sample.registry ∅ (data Sample.respCount) Sample.count
    = Some (VStr "") /\
  specDisplayValue Sample.registry ∅ (data Sample.respCount) Sample.count = VNum 0 /\
  dl_value <$> renderField Sample.registry ∅ (data Sample.respCount) Sample.count
    <> Some (specDisplayValue Sample.registry ∅ (data Sample.respCount) Sample.count).
Proof. split; [reflexivity|]. split; [reflexivity|]. discriminate. Qed.

(** *** The load life cycle *)

Section Traces.

Variable getWidget : string -> Widget.
Variable gettext : string -> string.

Lemma settle_frame (i : nat) (w w' : World) :
  settle i w = Some w' ->
  objects w' = objects w /\ state w' = state w /\ route w' = route w.
Proof.
  unfold settle. destruct (requests w !! i) as [r|]; [|discriminate].
  destruct (req_settled r); [discriminate|]. by intros [= <-].
Qed.

Lemma settle_pending (w : World) (i : nat) (p : string) :
  requests w !! i = Some (mkRequest p false) -> is_Some (settle i w).
Proof. intros H. unfold settle. rewrite H. simpl. eauto. Qed.

Lemma onLoaded_pendingEdits (resp : Response) (w : World) :
  pendingEdits (onLoaded resp w) = Some ∅.
Proof. unfold onLoaded. simpl. by apply pendingEdits_alloc. Qed.

Lemma onLoaded_reflects (resp : Response) (w : World) :
  reflects resp (state (onLoaded resp w)).
Proof. done. Qed.

Lemma onLoaded_loaded (resp : Response) (w : World) : loaded (onLoaded resp w).
Proof.
  exists (data resp), (length (objects w)), ∅, (datamodel resp), (record_info resp).
  split; [done|]. split.
  { simpl. rewrite lookup_app_r by lia. by rewrite Nat.sub_diag. }
  split; [intros k; by rewrite lookup_empty|].
  split; [intros k x; by rewrite lookup_empty|]. by rewrite lookup_empty.
Qed.

Lemma loaded_frame (w w' : World) :
  objects w' = objects w -> state w' = state w -> loaded w -> loaded w'.
Proof.
  intros Ho Hs (initial & l & rd & dm & ri & H1 & H2 & H3 & H4).
  exists initial, l, rd, dm, ri. rewrite Ho, Hs. done.
Qed.

Lemma loaded_pendingEdits (w : World) :
  loaded w ->
  exists initial rd dm ri,
    recordInitialData (state w) = Some initial /\
    pendingEdits w = Some rd /\
    recordDataModel (state w) = Some dm /\
    recordInfo (state w) = Some ri /\
    (forall k, isHiddenField k = true -> rd !! k = None) /\
    (forall k x, rd !! k = Some x -> x <> VUndefined).
Proof.
  intros (initial & l & rd & dm & ri & H1 & H2 & H3 & H4 & _).
  exists initial, rd, dm, ri. unfold pendingEdits. rewrite H1. simpl. done.
Qed.

Lemma loaded_plain (w : World) (rd : obj) :
  loaded w -> pendingEdits w = Some rd -> rd !! "__proto__" = None.
Proof.
  intros (initial & l & rd0 & dm & ri & H1 & H2 & _ & _ & H5).
  unfold pendingEdits. rewrite H1. simpl. rewrite H2. by intros [= <-].
Qed.

Lemma loaded_render (w : World) :
  loaded w -> exists page, render getWidget gettext w = Ok (Some page).
Proof.
  intros (initial & rd & dm & ri & Hin & Hrd & Hdm & Hri & _)%loaded_pendingEdits.
  unfold render. rewrite Hri.
  rewrite (renderFormFields_ok getWidget w dm rd initial Hdm Hrd Hin). eauto.
Qed.

Lemma initial_render (w : World) :
  state w = getInitialState -> render getWidget gettext w = Ok None.
Proof. intros H. unfold render. by rewrite H. Qed.

Lemma handlers_visible (w : World) (f : Field) :
  f ∈ handlers getWidget gettext w ->
  isHiddenField (field_name f) = false /\ recordInfo (state w) <> None.
Proof.
  unfold handlers, render. destruct (recordInfo (state w)); [|by intros ?%elem_of_nil].
  unfold renderFormFields.
  destruct (recordDataModel (state w)) as [dm|]; [|by intros ?%elem_of_nil].
  destruct (pendingEdits w) as [rd|]; [|by intros ?%elem_of_nil].
  destruct (recordInitialData (state w)) as [initial|]; [|by intros ?%elem_of_nil].
  simpl. intros (dl & -> & Hdl)%list_elem_of_fmap.
  apply list_elem_of_omap in Hdl as (o & Ho & Hid). simpl in Hid. subst o.
  apply list_elem_of_fmap in Ho as (f0 & Hf0 & _). symmetry in Hf0.
  apply renderField_Some in Hf0 as (Hh & -> & _). done.
Qed.

Lemma onValueChange_loaded (f : Field) (v : value) (w w' : World) :
  isHiddenField (field_name f) = false ->
  loaded w -> onValueChange f v w = Ok w' -> loaded w'.
Proof.
  intros Hvis (initial & l & rd & dm & ri & Hst & Hl & Hhid & Hdef & Hp) Hch.
  assert (Hrd : pendingEdits w = Some rd) by (unfold pendingEdits; by rewrite Hst).
  destruct (onValueChange_inv f v w w' rd Hrd Hp Hch) as (rd' & -> & Hcases).
  exists initial, (length (objects w)), rd', dm, ri.
  simpl. rewrite Hst. simpl. split; [done|]. split.
  { rewrite lookup_app_r by lia. by rewrite Nat.sub_diag. }
  pose proof (js_or_empty_defined v) as Hv.
  destruct Hcases as [->|[->|[->|(-> & _ & Hname)]]].
  - split; [|split].
    + intros k Hk. apply lookup_singleton_ne. by intros <-.
    + intros k x [<- <-]%lookup_singleton_Some. done.
    + by apply lookup_singleton_ne.
  - split; [|split].
    + intros k Hk. rewrite lookup_insert_ne; [by apply Hhid|]. by intros <-.
    + intros k x. destruct (decide ("$set" = k)) as [<-|Hne].
      * rewrite lookup_insert_eq. by intros [= <-].
      * rewrite lookup_insert_ne by done. apply Hdef.
    + by rewrite lookup_insert_ne.
  - done.
  - split; [|split].
    + intros k Hk. rewrite lookup_insert_ne; [by apply Hhid|]. intros <-. congruence.
    + intros k x. destruct (decide (field_name f = k)) as [<-|Hne].
      * rewrite lookup_insert_eq. by intros [= <-].
      * rewrite lookup_insert_ne by done. apply Hdef.
    + by rewrite lookup_insert_ne.
Qed.

Lemma step_resolve (w w' : World) (i : nat) (resp : Response) :
  step getWidget gettext w (Resolve i resp) = Some w' ->
  exists w0, settle i w = Some w0 /\ w' = onLoaded resp w0.
Proof.
  simpl. destruct (settle i w) as [w0|]; [|discriminate].
  simpl. intros [= <-]. eauto.
Qed.

(** A change either ran to its end or threw and left the world alone. *)
Lemma step_change (w w' : World) (f : Field) (v : value) :
  step getWidget gettext w (Change f v) = Some w' ->
  f ∈ handlers getWidget gettext w /\ (onValueChange f v w = Ok w' \/ w' = w).
Proof.
  simpl. case_decide as Hf; [|discriminate]. intros H. split; [done|].
  destruct (onValueChange f v w) as [w1| |]; injection H as <-; auto.
Qed.

Lemma step_loaded (w w' : World) (e : Event) :
  loaded w -> step getWidget gettext w e = Some w' -> loaded w'.
Proof.
  intros Hw. destruct e as [p|i resp|i|f v].
  - simpl. intros [= <-]. by eapply loaded_frame.
  - intros (w0 & _ & ->)%step_resolve. apply onLoaded_loaded.
  - simpl. intros (Ho & Hs & _)%settle_frame. by eapply loaded_frame.
  - intros [Hf [Hch| ->]]%step_change; [|done].
    apply handlers_visible in Hf as [Hf _]. by eapply onValueChange_loaded.
Qed.

Lemma step_initial (w w' : World) (e : Event) :
  state w = getInitialState -> is_resolve e = false ->
  step getWidget gettext w e = Some w' -> state w' = getInitialState.
Proof.
  intros Hw He. destruct e as [p|i resp|i|f v]; [| discriminate He | |].
  - simpl. by intros [= <-].
  - simpl. intros (_ & Hs & _)%settle_frame. congruence.
  - intros [Hf _]%step_change.
    apply handlers_visible in Hf as [_ Hf]. rewrite Hw in Hf. done.
Qed.

Lemma run_loaded (t : list Event) (w w' : World) :
  loaded w -> run getWidget gettext w t = Some w' -> loaded w'.
Proof.
  revert w. induction t as [|e t IH]; intros w Hw; simpl.
  - by intros [= <-].
  - destruct (step getWidget gettext w e) as [w1|] eqn:He; [|discriminate].
    apply IH. by eapply step_loaded.
Qed.

(** A trace from an unloaded world ends loaded when it has applied a
    response, and in the initial state when it has not. *)
Lemma run_trace (t : list Event) (w w' : World) :
  state w = getInitialState ->
  run getWidget gettext w t = Some w' ->
  if existsb is_resolve t then loaded w' else state w' = getInitialState.
Proof.
  revert w. induction t as [|e t IH]; intros w Hw; simpl.
  - intros [= <-]. done.
  - destruct (step getWidget gettext w e) as [w1|] eqn:He; [|discriminate].
    intros Hrun. destruct (is_resolve e) eqn:Hres; simpl.
    + destruct e; try discriminate Hres.
      apply step_resolve in He as (w0 & _ & ->).
      eapply run_loaded; [apply onLoaded_loaded | done].
    + eapply IH; [|done]. by eapply step_initial.
Qed.

Lemma run_app (t1 t2 : list Event) (w w' : World) :
  run getWidget gettext w (t1 ++ t2) = Some w' <->
  exists w1, run getWidget gettext w t1 = Some w1 /\ run getWidget gettext w1 t2 = Some w'.
Proof.
  revert w. induction t1 as [|e t1 IH]; intros w; simpl.
  - split; [eauto|]. by intros (w1 & [= <-] & H).
  - destruct (step getWidget gettext w e) as [w0|]; [apply IH|].
    split; [discriminate|]. by intros (w1 & ? & _).
Qed.

Lemma step_keeps_record (w w' : World) (e : Event) :
  is_resolve e = false ->
  step getWidget gettext w e = Some w' ->
  recordInitialData (state w') = recordInitialData (state w) /\
  recordDataModel (state w') = recordDataModel (state w) /\
  recordInfo (state w') = recordInfo (state w).
Proof.
  intros He. destruct e as [p|i resp|i|f v]; [| discriminate He | |].
  - simpl. by intros [= <-].
  - simpl. intros (_ & -> & _)%settle_frame. done.
  - intros [_ [Hch| ->]]%step_change; [|done].
    apply onValueChange_record in Hch. tauto.
Qed.

Lemma run_keeps_record (t : list Event) (w w' : World) :
  run getWidget gettext w t = Some w' ->
  existsb is_resolve t = false ->
  recordInitialData (state w') = recordInitialData (state w) /\
  recordDataModel (state w') = recordDataModel (state w) /\
  recordInfo (state w') = recordInfo (state w).
Proof.
  revert w. induction t as [|e t IH]; intros w; simpl.
  - by intros [= <-].
  - destruct (step getWidget gettext w e) as [w1|] eqn:He; [|discriminate].
    intros Hrun [Hres Ht]%orb_false_elim.
    destruct (IH w1 Hrun Ht) as (H1 & H2 & H3).
    destruct (step_keeps_record w w1 e Hres He) as (G1 & G2 & G3).
    rewrite H1, H2, H3. done.
Qed.

(** The world after the last response of a trace was applied and the events
    after it ran. *)
Lemma run_last_response (p : string) (t1 t2 : list Event) (i : nat)
    (resp : Response) (w : World) :
  run getWidget gettext (mount p) (t1 ++ Resolve i resp :: t2) = Some w ->
  existsb is_resolve t2 = false ->
  loaded w /\ reflects resp (state w).
Proof.
  intros Hrun Ht2. pose proof Hrun as Htrace.
  apply run_trace in Htrace; [|done].
  rewrite existsb_app in Htrace. simpl in Htrace. rewrite orb_true_r in Htrace.
  split; [done|].
  apply run_app in Hrun as (w1 & _ & Hrun). simpl in Hrun.
  destruct (settle i w1) as [w0|] eqn:Hs; [|discriminate]. simpl in Hrun.
  destruct (run_keeps_record t2 (onLoaded resp w0) w Hrun Ht2) as (H1 & H2 & H3).
  unfold reflects. rewrite H1, H2, H3. done.
Qed.

Lemma isHiddenField_names (name : string) :
  name ∈ ["_path"; "_gid"; "_model"; "_attachment_for"; "_attachment_type"] ->
  isHiddenField name = true.
Proof.
  intros H. repeat (apply elem_of_cons in H as [->|H]; [reflexivity|]).
  by apply elem_of_nil in H.
Qed.

Lemma last_filter_elem {A : Type} (P : A -> Prop) `{forall x, Decision (P x)}
    (l : list A) (x : A) :
  last (filter P l) = Some x -> x ∈ l /\ P x.
Proof.
  intros Hlast%last_Some_elem_of. apply list_elem_of_filter in Hlast. tauto.
Qed.

Lemma assignProperty_lookup (own : obj) (accessor : bool) (k n : string) (v : value) :
  n <> "__proto__" ->
  fst (assignProperty (own, accessor) k v) !! n
  = if decide (k = n) then Some v else own !! n.
Proof.
  intros Hn. unfold assignProperty.
  destruct (String.eqb k "__proto__" && accessor && _) eqn:Hset; simpl.
  - rewrite decide_False; [done|]. intros <-.
    apply andb_true_iff in Hset as [[->%String.eqb_eq _]%andb_true_iff _]. done.
  - case_decide as Hk; [subst; by rewrite lookup_insert_eq | by rewrite lookup_insert_ne].
Qed.

(** What [forEach] leaves in [rv] under a name other than [__proto__]: the
    value of the last field of that name, and what was there before when no
    field has it. *)
Lemma forEach_last (g : Field -> value) (n : string) (l : list Field) (acc : obj * bool) :
  n <> "__proto__" ->
  fst (foldl (fun rv f => assignProperty rv (field_name f) (g f)) acc l) !! n =
  match last (filter (fun f => field_name f = n) l) with
  | Some f => Some (g f)
  | None => fst acc !! n
  end.
Proof.
  intros Hn. revert acc. induction l as [|a l IH]; intros [own accessor]; [done|].
  cbn [foldl]. rewrite IH. destruct (decide (field_name a = n)) as [Ha|Ha].
  - rewrite filter_cons_True by done. rewrite last_cons.
    destruct (last (filter _ l)); [done|].
    rewrite assignProperty_lookup by done. by rewrite decide_True.
  - rewrite filter_cons_False by done.
    destruct (last (filter _ l)); [done|].
    rewrite assignProperty_lookup by done. by rewrite decide_False.
Qed.

Lemma getValues_ok (w : World) (dm : DataModel) (rd initial : obj) :
  recordDataModel (state w) = Some dm ->
  pendingEdits w = Some rd ->
  recordInitialData (state w) = Some initial ->
  getValues getWidget w =
    Ok (fst (foldl (fun rv f =>
                      assignProperty rv (field_name f) (submitValue getWidget rd initial f))
               (∅, true) (fields dm))).
Proof. intros Hdm Hrd Hin. unfold getValues. by rewrite Hdm, Hrd, Hin. Qed.

Lemma last_filter_name (n : string) (l : list Field) :
  is_Some (last (filter (fun f => field_name f = n) l)) <-> n ∈ field_name <$> l.
Proof.
  rewrite last_is_Some. split.
  - intros Hne. destruct (filter _ l) as [|f fl] eqn:Hfl; [done|].
    assert (Hf : f ∈ filter (fun f => field_name f = n) l)
      by (rewrite Hfl; apply elem_of_cons; by left).
    apply list_elem_of_filter in Hf as [<- Hf]. by apply list_elem_of_fmap_2.
  - intros (f & -> & Hf)%list_elem_of_fmap Hnil.
    eapply (filter_nil_not_elem_of _ _ f); [exact Hnil | done | done].
Qed.

Lemma hidden_not_proto (n : string) : isHiddenField n = true -> n <> "__proto__".
Proof. by intros H ->. Qed.

Lemma hidden_not_inherited (n : string) : isHiddenField n = true -> inherited n = VUndefined.
Proof.
  unfold isHiddenField.
  repeat match goal with
         | |- (if String.eqb n ?s then _ else _) = true -> _ =>
             destruct (String.eqb_spec n s) as [->|_]; [reflexivity|]
         end.
  discriminate.
Qed.

(** C5: in every world the view can reach, whatever the order of the
    schema, a field named by one of the hidden identifiers has no entry in
    the rendered form (its position holds [null] and no entry carries its
    name), and [getValues] maps its name to the stored value, as stored. *)
Theorem hidden_field_round_trip (p : string) (t : list Event) (w : World)
    (dm : DataModel) (initial : obj) (f : Field) :
  run getWidget gettext (mount p) t = Some w ->
  recordDataModel (state w) = Some dm ->
  recordInitialData (state w) = Some initial ->
  f ∈ fields dm ->
  field_name f ∈ ["_path"; "_gid"; "_model"; "_attachment_for"; "_attachment_type"] ->
  (exists form,
     renderFormFields getWidget w = Ok form /\
     (forall i, fields dm !! i = Some f -> form !! i = Some None) /\
     (forall dl, Some dl ∈ form -> dl_key dl <> field_name f)) /\
  (exists rv,
     getValues getWidget w = Ok rv /\
     rv !! field_name f = Some (get initial (field_name f))).
Proof.
  intros Hrun Hdm Hin Hf Hname. apply isHiddenField_names in Hname.
  pose proof (run_trace t (mount p) w eq_refl Hrun) as Hw.
  destruct (existsb is_resolve t).
  2:{ rewrite Hw in Hdm. discriminate. }
  apply loaded_pendingEdits in Hw
    as (initial' & rd & dm' & ri & Hin' & Hrd & Hdm' & _ & Hhid & _).
  rewrite Hin in Hin'. rewrite Hdm in Hdm'.
  injection Hin' as <-. injection Hdm' as <-.
  split.
  - eexists. split; [by eapply renderFormFields_ok|]. split.
    + intros i Hi. rewrite list_lookup_fmap, Hi. simpl.
      by rewrite renderField_hidden.
    + intros dl (f0 & Hf0 & _)%list_elem_of_fmap. symmetry in Hf0.
      apply renderField_Some in Hf0 as (Hvis & _ & -> & _). congruence.
  - eexists. split; [by apply getValues_ok|].
    rewrite forEach_last by (by apply hidden_not_proto).
    assert (Hsome : is_Some (last (filter (fun g => field_name g = field_name f) (fields dm))))
      by (apply last_filter_name; by apply list_elem_of_fmap_2).
    destruct Hsome as [g Hg]. rewrite Hg. apply last_filter_elem in Hg as [_ Hn].
    unfold submitValue. rewrite Hn. unfold get at 1.
    by rewrite (Hhid _ Hname), (hidden_not_inherited _ Hname).
Qed.

(** C2, as amended: [render] returns [null] exactly as long as no response
    has been applied since the mount.  Once one has been applied it returns
    the page of the response applied last: the heading made from that
    record's label, or from its id when the record does not exist, and the
    form of that response's schema and data under the pending edits.  New
    props, with a new path or the same, issue a load for that path and leave
    the state and what is rendered as they are. *)
Theorem render_null_until_first_response (p : string) (t : list Event) (w : World) :
  run getWidget gettext (mount p) t = Some w ->
  (render getWidget gettext w = Ok None <-> existsb is_resolve t = false) /\
  (existsb is_resolve t = true -> exists page, render getWidget gettext w = Ok (Some page)) /\
  (forall t1 i resp t2,
     t = t1 ++ Resolve i resp :: t2 ->
     existsb is_resolve t2 = false ->
     exists rd,
       pendingEdits w = Some rd /\
       reflects resp (state w) /\
       render getWidget gettext w =
         Ok (Some {| page_heading :=
                       replaceFirst (gettext "Edit “%s”") "%s"
                         (if ri_exists (record_info resp)
                          then ri_label (record_info resp)
                          else ri_id (record_info resp));
                     page_form :=
                       renderField getWidget rd (data resp) <$> fields (datamodel resp) |})) /\
  (forall p', exists w',
     step getWidget gettext w (ReceiveProps p') = Some w' /\
     state w' = state w /\
     render getWidget gettext w' = render getWidget gettext w /\
     route w' = p' /\
     requests w' = requests w ++ [mkRequest p' false]).
Proof.
  intros Hrun. pose proof (run_trace t (mount p) w eq_refl Hrun) as Hw.
  split; [|split; [|split]].
  - destruct (existsb is_resolve t).
    + apply loaded_render in Hw as [page Hpage]. rewrite Hpage. split; discriminate.
    + split; [done|]. intros _. by apply initial_render.
  - intros Ht. rewrite Ht in Hw. by apply loaded_render.
  - intros t1 i resp t2 -> Ht2.
    destruct (run_last_response p t1 t2 i resp w Hrun Ht2) as [Hl (R1 & R2 & R3)].
    apply loaded_pendingEdits in Hl as (initial & rd & dm & ri & Hin & Hrd & Hdm & Hri & _).
    exists rd. split; [done|]. split; [done|].
    unfold render. rewrite R3.
    rewrite (renderFormFields_ok getWidget w _ rd _ R2 Hrd R1).
    unfold heading, getLabel. rewrite R3.
    by destruct (ri_exists (record_info resp)).
  - intros p'. eexists. split; [reflexivity|]. done.
Qed.

(** C6: a rejected load changes neither the state nor the heap nor what is
    rendered; and as long as no load has succeeded, the view is in its
    initial state and [render] returns [null], after the rejection and after
    any further events that apply no response. *)
Theorem rejected_load_keeps_state (p : string) (t : list Event) (w w' : World) (i : nat) :
  run getWidget gettext (mount p) t = Some w ->
  step getWidget gettext w (Reject i) = Some w' ->
  state w' = state w /\
  objects w' = objects w /\
  render getWidget gettext w' = render getWidget gettext w /\
  (existsb is_resolve t = false ->
   forall t' w'',
     existsb is_resolve t' = false ->
     run getWidget gettext w' t' = Some w'' ->
     state w'' = getInitialState /\ render getWidget gettext w'' = Ok None).
Proof.
  intros Hrun Hrej. simpl in Hrej. apply settle_frame in Hrej as (Ho & Hs & _).
  split; [done|]. split; [done|]. split.
  { unfold render, renderFormFields, heading, pendingEdits. by rewrite Ho, Hs. }
  intros Ht t' w'' Ht' Hrun'.
  pose proof (run_trace t (mount p) w eq_refl Hrun) as Hw. rewrite Ht in Hw.
  assert (Hw' : state w' = getInitialState) by congruence.
  pose proof (run_trace t' w' w'' Hw' Hrun') as Hw''. rewrite Ht' in Hw''.
  split; [done|]. by apply initial_render.
Qed.

Lemma step_receiveProps (w : World) (p : string) :
  step getWidget gettext w (ReceiveProps p) = Some (syncEditor (with_route p w)).
Proof. reflexivity. Qed.

Lemma step_resolve_pending (w : World) (i : nat) (p : string) (resp : Response) :
  requests w !! i = Some (mkRequest p false) ->
  step getWidget gettext w (Resolve i resp) =
    Some (onLoaded resp {| objects := objects w;
                           state := state w;
                           route := route w;
                           requests := <[i := mkRequest p true]> (requests w) |}).
Proof. intros H. simpl. unfold settle. by rewrite H. Qed.

(** C1, as amended: a response is applied when it arrives, with no check of
    the path it was issued for.  After loads for [a] and then [b] were
    issued and both responses were handled, the record state is the one of
    the response handled last: the one of [b] when the response of [a]
    arrived first, the one of [a] when it arrived after the response of
    [b]. *)
Theorem responses_apply_in_arrival_order (w : World) (a b : string) (ra rb : Response) :
  exists w2,
    run getWidget gettext w [ReceiveProps a; ReceiveProps b] = Some w2 /\
    route w2 = b /\
    requests w2 !! length (requests w) = Some (mkRequest a false) /\
    requests w2 !! S (length (requests w)) = Some (mkRequest b false) /\
    (exists w', run getWidget gettext w2
                  [Resolve (length (requests w)) ra; Resolve (S (length (requests w))) rb]
                = Some w' /\ reflects rb (state w')) /\
    (exists w', run getWidget gettext w2
                  [Resolve (S (length (requests w))) rb; Resolve (length (requests w)) ra]
                = Some w' /\ reflects ra (state w')).
Proof.
  set (n := length (requests w)).
  assert (Ha : ((requests w ++ [mkRequest a false]) ++ [mkRequest b false]) !! n
               = Some (mkRequest a false)).
  { apply lookup_app_l_Some. rewrite lookup_app_r by (unfold n; lia).
    unfold n. by rewrite Nat.sub_diag. }
  assert (Hb : ((requests w ++ [mkRequest a false]) ++ [mkRequest b false]) !! S n
               = Some (mkRequest b false)).
  { rewrite lookup_app_r by (rewrite length_app; simpl; unfold n; lia).
    rewrite length_app. simpl. unfold n.
    by replace (S (length (requests w)) - (length (requests w) + 1)) with 0 by lia. }
  eexists. split; [reflexivity|].
  split; [done|]. split; [exact Ha|]. split; [exact Hb|]. split.
  - eexists. split; [|apply onLoaded_reflects].
    cbn [run]. erewrite step_resolve_pending by exact Ha.
    erewrite step_resolve_pending; [reflexivity|].
    simpl. rewrite list_lookup_insert_ne by (unfold n; lia). exact Hb.
  - eexists. split; [|apply onLoaded_reflects].
    cbn [run]. erewrite step_resolve_pending by exact Hb.
    erewrite step_resolve_pending; [reflexivity|].
    simpl. rewrite list_lookup_insert_ne by (unfold n; lia). exact Ha.
Qed.

(** C10: every response that is applied leaves [pendingEdits] empty, whatever
    was pending; and new props always lead there: for any props, with a new
    record path or the current one, a load is issued, and when its response
    is applied the pending edits are gone. *)
Theorem load_response_discards_edits (w : World) (p : string) (resp : Response) :
  (forall i w', step getWidget gettext w (Resolve i resp) = Some w' ->
                pendingEdits w' = Some ∅) /\
  (forall (Props : Type) (nextProps : Props),
     componentWillReceiveProps nextProps w = syncEditor w) /\
  (exists w',
     run getWidget gettext w [ReceiveProps p; Resolve (length (requests w)) resp] = Some w' /\
     pendingEdits w' = Some ∅ /\
     reflects resp (state w')).
Proof.
  split; [|split].
  - intros i w' (w0 & _ & ->)%step_resolve. apply onLoaded_pendingEdits.
  - done.
  - eexists. split; [|split; [apply onLoaded_pendingEdits | apply onLoaded_reflects]].
    cbn [run]. rewrite step_receiveProps.
    erewrite step_resolve_pending; [reflexivity|].
    simpl. rewrite lookup_app_r by lia. by rewrite Nat.sub_diag.
Qed.

(** The pending edits of a world the view can reach: an object of the heap
    with no own [__proto__] and no [undefined] in it. *)
Lemma reachable_pendingEdits (p : string) (t : list Event) (w : World) (rd : obj) :
  run getWidget gettext (mount p) t = Some w ->
  pendingEdits w = Some rd ->
  rd !! "__proto__" = None /\ (forall k x, rd !! k = Some x -> x <> VUndefined).
Proof.
  intros Hrun Hrd. pose proof (run_trace t (mount p) w eq_refl Hrun) as Hw.
  destruct (existsb is_resolve t).
  - split; [by eapply loaded_plain|].
    apply loaded_pendingEdits in Hw as (? & rd' & ? & ? & _ & Hrd' & _ & _ & _ & Hdef).
    rewrite Hrd in Hrd'. by injection Hrd' as <-.
  - unfold pendingEdits in Hrd. rewrite Hw in Hrd. discriminate.
Qed.



End Traces.

Lemma hidden_field_round_trip_witness :
  exists w,
    run Sample.registry Fixtures.gettext (mount "/b")
      [Resolve 0 Sample.respB; Change Sample.title (VStr "X")] = Some w /\
    (exists form,
       renderFormFields Sample.registry w = Ok form /\
       (forall i, fields (datamodel Sample.respB) !! i = Some Sample.hiddenPath ->
                  form !! i = Some None) /\
       (forall dl, Some dl ∈ form -> dl_key dl <> field_name Sample.hiddenPath)) /\
    (exists rv,
       getValues Sample.registry w = Ok rv /\
       rv !! field_name Sample.hiddenPath
         = Some (get (data Sample.respB) (field_name Sample.hiddenPath))).
Proof.
  eexists. split; [reflexivity|].
  apply (hidden_field_round_trip Sample.registry Fixtures.gettext "/b"
           [Resolve 0 Sample.respB; Change Sample.title (VStr "X")] _
           (datamodel Sample.respB) (data Sample.respB) Sample.hiddenPath).
  - reflexivity.
  - reflexivity.
  - reflexivity.
  - simpl. apply elem_of_cons. by left.
  - simpl. apply elem_of_cons. by left.
Defined.

(** C2 as stated fails once a record was loaded: after the response for
    [/a] was applied and the route moved to [/b], the load for [/b] is still
    in flight and [render] shows the page of [/a], not [null]. *)
Lemma path_change_keeps_page_counterexample :
  exists w page,
    run Sample.registry Fixtures.gettext (mount "/a")
      [Resolve 0 Sample.respA; ReceiveProps "/b"] = Some w /\
    route w = "/b" /\
    requests w !! 1 = Some (mkRequest "/b" false) /\
    render Sample.registry Fixtures.gettext w = Ok (Some page) /\
    page_heading page = "Edit “Page A”" /\
    render Sample.registry Fixtures.gettext w <> Ok None.
Proof.
  eexists _, _. split; [reflexivity|]. split; [reflexivity|].
  split; [reflexivity|]. split; [reflexivity|]. split; [reflexivity|].
  discriminate.
Qed.

Lemma render_null_until_first_response_witness :
  exists w rd,
    run Sample.registry Fixtures.gettext (mount "/a")
      ([] ++ Resolve 0 Sample.respA :: [ReceiveProps "/b"]) = Some w /\
    pendingEdits w = Some rd /\
    reflects Sample.respA (state w) /\
    render Sample.registry Fixtures.gettext w =
      Ok (Some {| page_heading :=
                    replaceFirst (Fixtures.gettext "Edit “%s”") "%s"
                      (if ri_exists (record_info Sample.respA)
                       then ri_label (record_info Sample.respA)
                       else ri_id (record_info Sample.respA));
                  page_form :=
                    renderField Sample.registry rd (data Sample.respA)
                      <$> fields (datamodel Sample.respA) |}).
Proof.
  eexists.
  destruct (render_null_until_first_response Sample.registry Fixtures.gettext "/a"
              ([] ++ Resolve 0 Sample.respA :: [ReceiveProps "/b"]) _ eq_refl)
    as (_ & _ & Hlast & _).
  destruct (Hlast [] 0 Sample.respA [ReceiveProps "/b"] eq_refl eq_refl) as (rd & H).
  exists rd. split; [reflexivity | exact H].
Defined.

Lemma rejected_load_keeps_state_witness :
  exists w w',
    run Sample.registry Fixtures.gettext (mount "/a") [ReceiveProps "/b"; Reject 0] = Some w /\
    step Sample.registry Fixtures.gettext w (Reject 1) = Some w' /\
    state w' = state w /\
    objects w' = objects w /\
    render Sample.registry Fixtures.gettext w' = render Sample.registry Fixtures.gettext w /\
    (existsb is_resolve [ReceiveProps "/b"; Reject 0] = false ->
     forall t' w'',
       existsb is_resolve t' = false ->
       run Sample.registry Fixtures.gettext w' t' = Some w'' ->
       state w'' = getInitialState /\ render Sample.registry Fixtures.gettext w'' = Ok None).
Proof.
  eexists _, _. split; [reflexivity|]. split; [reflexivity|].
  apply (rejected_load_keeps_state Sample.registry Fixtures.gettext "/a"
           [ReceiveProps "/b"; Reject 0] _ _ 1); reflexivity.
Defined.

(** C1 as stated fails when the responses arrive out of order: the response
    for [/a], handled after the one for [/b], overwrites the record state
    while the route is [/b]. *)
Lemma stale_response_counterexample :
  exists w,
    run Sample.registry Fixtures.gettext (mount "/a")
      [ReceiveProps "/b"; Resolve 1 Sample.respB; Resolve 0 Sample.respA] = Some w /\
    route w = "/b" /\
    reflects Sample.respA (state w) /\
    ~ reflects Sample.respB (state w).
Proof.
  eexists. split; [reflexivity|]. split; [reflexivity|].
  split; [by repeat split|].
  intros (_ & _ & Hinfo). discriminate Hinfo.
Qed.

Lemma load_response_discards_edits_witness :
  exists w,
    onValueChange Sample.title (VStr "draft") Sample.loadedA = Ok w /\
    pendingEdits w = Some {[ "title" := VStr "draft" ]} /\
    route w = "/a" /\
    exists w',
      run Sample.registry Fixtures.gettext w
        [ReceiveProps "/a"; Resolve (length (requests w)) Sample.respA] = Some w' /\
      pendingEdits w' = Some ∅ /\
      reflects Sample.respA (state w').
Proof.
  eexists. split; [reflexivity|]. split; [reflexivity|]. split; [reflexivity|].
  apply (proj2 (proj2 (load_response_discards_edits Sample.registry Fixtures.gettext
                         _ "/a" Sample.respA))).
Defined.





End EditPageFacts.

(** ** Properties of the breadcrumbs *)

Module BreadCrumbsFacts.

Import BreadCrumbs.

Section Render.

Variable getUrlRecordPathWithAlt : string -> string.
Variable isRecordPreviewActive : bool.
Variable trans : string -> string.
Variable children : list nat.

(** [map] with the closure's assignments: the crumbs in order, and
    [lastItem] is the last segment, or what it was when there is none. *)
Lemma mapSegments_acc (segs : list Segment) (acc : list Node) (lastItem : option Segment) :
  foldl (fun '(crumbs, _) item =>
           (crumbs ++ [crumb getUrlRecordPathWithAlt isRecordPreviewActive item], Some item))
        (acc, lastItem) segs
  = (acc ++ (crumb getUrlRecordPathWithAlt isRecordPreviewActive <$> segs),
     match last segs with Some s => Some s | None => lastItem end).
Proof.
  revert acc lastItem. induction segs as [|s segs IH]; intros acc lastItem; simpl.
  - by rewrite app_nil_r.
  - rewrite IH. rewrite <- app_assoc. simpl. f_equal.
    destruct segs as [|s' segs]; [done|]. simpl.
    destruct (last (s' :: segs)) eqn:E; [done|]. by apply last_None in E.
Qed.

Lemma mapSegments_map (segs : list Segment) :
  mapSegments getUrlRecordPathWithAlt isRecordPreviewActive segs None
  = (crumb getUrlRecordPathWithAlt isRecordPreviewActive <$> segs, last segs).
Proof.
  unfold mapSegments. rewrite mapSegments_acc. simpl. by destruct (last segs).
Qed.

(** C3, as amended: when no path info is available ([recordPathInfo] is
    [null]) the trail has exactly one entry, the fallback link with target
    ["edit"] and path ["root"]; when path info is available the trail has
    one crumb per segment, in order, and so none for an empty list of
    segments. *)
Theorem trail_fallback (st : State) :
  (recordPathInfo st = None ->
   trail getUrlRecordPathWithAlt isRecordPreviewActive trans st = [Li None None (mkLink "edit" (Some "root") (trans "BACK_TO_OVERVIEW"))]) /\
  (forall info, recordPathInfo st = Some info ->
   trail getUrlRecordPathWithAlt isRecordPreviewActive trans st = crumb getUrlRecordPathWithAlt isRecordPreviewActive <$> segments info /\
   length (trail getUrlRecordPathWithAlt isRecordPreviewActive trans st) = length (segments info)).
Proof.
  unfold BreadCrumbs.trail, crumbsAndLast. split.
  - by intros ->.
  - intros info ->. rewrite mapSegments_map. simpl.
    split; [done|]. by rewrite length_fmap.
Qed.

Lemma filter_children (l : list nat) : List.filter isAddChild (Child <$> l) = [].
Proof. induction l as [|c l IH]; [done|]. simpl. exact IH. Qed.

Lemma crumb_not_add_child (s : Segment) : isAddChild (crumb getUrlRecordPathWithAlt isRecordPreviewActive s) = false.
Proof.
  unfold BreadCrumbs.crumb, target.
  destruct (negb (seg_exists s)); simpl; by destruct isRecordPreviewActive.
Qed.

Lemma filter_crumbs (segs : list Segment) : List.filter isAddChild (crumb getUrlRecordPathWithAlt isRecordPreviewActive <$> segs) = [].
Proof.
  induction segs as [|s segs IH]; [done|].
  cbn [fmap list_fmap List.filter]. rewrite crumb_not_add_child. exact IH.
Qed.

(** C9: for a trail that is not empty, the rendered list has an add-child
    entry exactly when the last segment can have children, and then exactly
    one, which links to [add-child] with the alt-qualified path of that
    segment. *)
Theorem add_child_entry (st : State) (info : PathInfo) (s : Segment) :
  recordPathInfo st = Some info ->
  last (segments info) = Some s ->
  List.filter isAddChild (render getUrlRecordPathWithAlt isRecordPreviewActive trans children st) =
    if seg_can_have_children s
    then [Li None (Some "new-record-crumb")
             (mkLink "add-child" (Some (getUrlRecordPathWithAlt (seg_path s))) "+")]
    else [].
Proof.
  intros Hinfo Hlast. unfold BreadCrumbs.render, crumbsAndLast.
  rewrite Hinfo, mapSegments_map, Hlast.
  rewrite !List.filter_app, filter_children, filter_crumbs. simpl.
  by destruct (seg_can_have_children s).
Qed.

End Render.

Lemma trail_fallback_witness :
  trail (fun p => p +:+ "+de") false (fun k => k) initialState
  = [Li None None (mkLink "edit" (Some "root") "BACK_TO_OVERVIEW")].
Proof.
  apply (trail_fallback (fun p => p +:+ "+de") false (fun k => k) initialState).
  reflexivity.
Defined.

(** C3 as stated fails for a loaded path info whose list of segments is
    empty: the trail is empty, with no fallback link. *)
Lemma empty_segments_counterexample :
  segments <$> recordPathInfo (onPathInfo "/" [] initialState) = Some [] /\
  trail (fun p => p +:+ "+de") false (fun k => k) (onPathInfo "/" [] initialState) = [].
Proof. split; reflexivity. Qed.

Lemma add_child_entry_witness :
  List.filter isAddChild
    (render (fun p => p +:+ "+de") true (fun k => k) [0]
       (mkState (Some (mkPathInfo "/blog" [Sample.root; Sample.blog]))))
  = [Li None (Some "new-record-crumb") (mkLink "add-child" (Some "/blog+de") "+")].
Proof.
  apply (add_child_entry (fun p => p +:+ "+de") true (fun k => k) [0]
           (mkState (Some (mkPathInfo "/blog" [Sample.root; Sample.blog])))
           (mkPathInfo "/blog" [Sample.root; Sample.blog]) Sample.blog);
    reflexivity.
Defined.

End BreadCrumbsFacts.

(** ** Further properties of the editing view *)

Module EditPageMore.

Import EditPage EditPageFacts.

Section Form.

Variable getWidget : string -> Widget.
Variable gettext : string -> string.

Lemma isSystemField_prefix (name : string) :
  isSystemField name = String.prefix "_" name.
Proof.
  unfold isSystemField. destruct name as [|c rest]; [reflexivity|].
  destruct rest; destruct c as [[] [] [] [] [] [] [] []]; reflexivity.
Qed.

(** X1: the rendered form has one child per field of the schema, in schema
    order: [null] at the position of a hidden field, and otherwise an entry
    keyed by the field's name that carries its label and type, with class
    ["field system-field"] when the name begins with an underscore and
    ["field"] when it does not. *)
Theorem renderFormFields_shape (w : World) (dm : DataModel) (rd initial : obj) :
  recordDataModel (state w) = Some dm ->
  pendingEdits w = Some rd ->
  recordInitialData (state w) = Some initial ->
  exists form,
    renderFormFields getWidget w = Ok form /\
    length form = length (fields dm) /\
    forall i f, fields dm !! i = Some f ->
      if isHiddenField (field_name f) then form !! i = Some None
      else exists dl,
        form !! i = Some (Some dl) /\
        dl_key dl = field_name f /\
        dl_label dl = field_label f /\
        dl_type dl = field_type f /\
        dl_field dl = f /\
        dl_className dl =
          if String.prefix "_" (field_name f) then "field system-field" else "field".
Proof.
  intros Hdm Hrd Hin. eexists. split; [by eapply renderFormFields_ok|].
  split; [by rewrite length_fmap|].
  intros i f Hf. rewrite list_lookup_fmap, Hf. simpl. unfold renderField.
  destruct (isHiddenField (field_name f)); [done|].
  eexists. split; [done|]. simpl. by rewrite isSystemField_prefix.
Qed.

Lemma bound_fields (rd initial : obj) (l : list Field) :
  dl_field <$> omap id (renderField getWidget rd initial <$> l)
  = filter (fun f => isHiddenField (field_name f) = false) l.
Proof.
  induction l as [|f l IH]; [done|].
  cbn [fmap list_fmap omap list_omap].
  unfold renderField at 1.
  destruct (isHiddenField (field_name f)) eqn:Hh; simpl.
  - rewrite filter_cons_False by (simpl; congruence). exact IH.
  - rewrite filter_cons_True by done. f_equal. exact IH.
Qed.

(** X2: in every world the view can reach, the fields that have a change
    handler are the fields of the loaded schema that are not hidden, in
    schema order; before a record is loaded there is none. *)
Theorem handlers_are_visible_fields (p : string) (t : list Event) (w : World) :
  run getWidget gettext (mount p) t = Some w ->
  handlers getWidget gettext w =
    match recordDataModel (state w) with
    | Some dm => filter (fun f => isHiddenField (field_name f) = false) (fields dm)
    | None => []
    end.
Proof.
  intros Hrun. pose proof (run_trace getWidget gettext t (mount p) w eq_refl Hrun) as Hw.
  destruct (existsb is_resolve t).
  - apply loaded_pendingEdits in Hw as (initial & rd & dm & ri & Hin & Hrd & Hdm & Hri & _).
    unfold handlers, render. rewrite Hri, Hdm.
    rewrite (renderFormFields_ok getWidget w dm rd initial Hdm Hrd Hin). simpl.
    apply bound_fields.
  - unfold handlers, render. by rewrite Hw.
Qed.




End Form.

Lemma renderFormFields_shape_witness :
  exists form,
    renderFormFields Sample.registry (onLoaded Sample.respB (mount "/b")) = Ok form /\
    length form = 2 /\
    form !! 0 = Some None.
Proof.
  destruct (renderFormFields_shape Sample.registry (onLoaded Sample.respB (mount "/b"))
              (datamodel Sample.respB) ∅ (data Sample.respB))
    as (form & Hform & Hlen & Hall); [reflexivity | reflexivity | reflexivity |].
  exists form. split; [exact Hform|]. split; [exact Hlen|].
  exact (Hall 0 Sample.hiddenPath eq_refl).
Defined.

Lemma handlers_are_visible_fields_witness :
  exists w,
    run Sample.registry Fixtures.gettext (mount "/b") [Resolve 0 Sample.respB] = Some w /\
    handlers Sample.registry Fixtures.gettext w = [Sample.title].
Proof.
  eexists. split; [reflexivity|].
  apply (handlers_are_visible_fields Sample.registry Fixtures.gettext "/b"
           [Resolve 0 Sample.respB]).
  reflexivity.
Defined.


(** *** Submission *)

Section Submission.

Variable getWidget : string -> Widget.
Variable gettext : string -> string.

Lemma assignProperty_keys (own : obj) (accessor : bool) (k n : string) (v : value) :
  is_Some (fst (assignProperty (own, accessor) k v) !! n) ->
  is_Some (own !! n) \/ n = k.
Proof.
  unfold assignProperty. destruct (String.eqb k "__proto__" && accessor && _); simpl.
  - by left.
  - destruct (decide (k = n)) as [->|Hk]; [by right|].
    rewrite lookup_insert_ne by done. by left.
Qed.

Lemma forEach_keys (g : Field -> value) (n : string) (l : list Field) (acc : obj * bool) :
  is_Some (fst (foldl (fun rv f => assignProperty rv (field_name f) (g f)) acc l) !! n) ->
  is_Some (fst acc !! n) \/ n ∈ field_name <$> l.
Proof.
  revert acc. induction l as [|a l IH]; intros [own accessor]; [by left|].
  cbn [foldl]. intros [H|H]%IH.
  - destruct (assignProperty (own, accessor) (field_name a) (g a)) as [own' accessor'] eqn:Ha.
    assert (Hk : is_Some (fst (assignProperty (own, accessor) (field_name a) (g a)) !! n))
      by (by rewrite Ha).
    apply assignProperty_keys in Hk as [Hk| ->]; [by left|].
    right. apply elem_of_cons. by left.
  - right. apply elem_of_cons. by right.
Qed.

(** X4: the mapping [getValues] returns has no key that is not a field name
    of the schema (stored data and pending edits under other names are left
    out), and it has a key for every field name of the schema other than
    [__proto__], whose assignment goes to the prototype accessor. *)
Theorem getValues_keys (w : World) (dm : DataModel) (rd initial : obj) :
  recordDataModel (state w) = Some dm ->
  pendingEdits w = Some rd ->
  recordInitialData (state w) = Some initial ->
  exists rv,
    getValues getWidget w = Ok rv /\
    (forall n, is_Some (rv !! n) -> n ∈ field_name <$> fields dm) /\
    (forall n, n <> "__proto__" -> n ∈ field_name <$> fields dm -> is_Some (rv !! n)).
Proof.
  intros Hdm Hrd Hin. eexists. split; [by apply getValues_ok|]. split.
  - intros n [H|H]%forEach_keys; [|done].
    simpl in H. rewrite lookup_empty in H. by destruct H.
  - intros n Hn Hin'. rewrite forEach_last by done.
    apply last_filter_name in Hin' as [f ->]. eauto.
Qed.

(** X5: under a name of the schema other than [__proto__], [getValues] holds
    what [pendingEdits[name]] reads when that is not [undefined] (an own
    entry or an inherited member of [Object.prototype]), passed through
    [serializeValue] of the widget of the last field of that name when that
    widget has one; and the stored value as it is read, with no conversion,
    when it is [undefined]. *)
Theorem getValues_value (w : World) (dm : DataModel) (rd initial : obj)
    (n : string) (f : Field) :
  recordDataModel (state w) = Some dm ->
  pendingEdits w = Some rd ->
  recordInitialData (state w) = Some initial ->
  n <> "__proto__" ->
  last (filter (fun g => field_name g = n) (fields dm)) = Some f ->
  exists rv,
    getValues getWidget w = Ok rv /\
    rv !! n = Some (if defined (get rd n)
                    then match serializeValue (getWidget (field_type f)) with
                         | Some ser => ser (get rd n)
                         | None => get rd n
                         end
                    else get initial n).
Proof.
  intros Hdm Hrd Hin Hn Hlast. eexists. split; [by apply getValues_ok|].
  rewrite forEach_last by done. rewrite Hlast.
  apply last_filter_elem in Hlast as [_ Hf].
  unfold submitValue. by rewrite Hf.
Qed.

(** X6: right after a response is applied, whatever the widgets are, under
    every name that is not a member of [Object.prototype], [getValues]
    holds the stored value as it was received ([undefined] when the data
    has none) when the schema has a field of that name, and nothing when it
    has none. *)
Theorem getValues_after_load (resp : Response) (w : World) :
  exists rv,
    getValues getWidget (onLoaded resp w) = Ok rv /\
    forall n,
      isPrototypeMember n = false ->
      rv !! n = if decide (n ∈ field_name <$> fields (datamodel resp))
                then Some (get (data resp) n) else None.
Proof.
  eexists. split.
  { apply getValues_ok; [done | apply onLoaded_pendingEdits | done]. }
  intros n Hmember.
  assert (Hn : n <> "__proto__") by (by intros ->).
  rewrite forEach_last by done.
  pose proof (last_filter_name n (fields (datamodel resp))) as Hlast'.
  destruct (last _) as [f|] eqn:Hlast.
  - rewrite decide_True by (apply Hlast'; eauto).
    apply last_filter_elem in Hlast as [_ Hf].
    assert (Hg : get (∅ : obj) n = VUndefined)
      by (unfold get, inherited; by rewrite lookup_empty, Hmember).
    unfold submitValue. by rewrite Hf, Hg.
  - rewrite decide_False; [simpl; apply lookup_empty|].
    intros [? ?]%Hlast'. discriminate.
Qed.

(** X7: in every world the view can reach, after [onValueChange(field,
    value)] for a field of the schema that is not hidden and whose name is
    neither a command of [React.addons.update] nor [__proto__], made while
    [pendingEdits.constructor] reads as [Object], the form shows
    [value || ''] for it, with no [deserializeValue], and [getValues] holds
    [value || ''] passed through the widget's [serializeValue] when it has
    one (the fields of that name being of one type). *)
Theorem edit_is_shown_and_submitted (p : string) (t : list Event) (w : World)
    (dm : DataModel) (rd initial : obj) (i : nat) (f : Field) (v : value) :
  run getWidget gettext (mount p) t = Some w ->
  recordDataModel (state w) = Some dm ->
  pendingEdits w = Some rd ->
  recordInitialData (state w) = Some initial ->
  fields dm !! i = Some f ->
  isHiddenField (field_name f) = false ->
  isCommand (field_name f) = false ->
  field_name f <> "__proto__" ->
  get rd "constructor" = VProto "constructor" ->
  (forall g, g ∈ fields dm -> field_name g = field_name f -> field_type g = field_type f) ->
  exists w' form dl rv,
    onValueChange f v w = Ok w' /\
    renderFormFields getWidget w' = Ok form /\
    form !! i = Some (Some dl) /\
    dl_value dl = js_or v (VStr "") /\
    getValues getWidget w' = Ok rv /\
    rv !! field_name f =
      Some (match serializeValue (getWidget (field_type f)) with
            | Some ser => ser (js_or v (VStr ""))
            | None => js_or v (VStr "")
            end).
Proof.
  intros Hrun Hdm Hrd Hin Hf Hvis Hcmd Hproto Hc Htype.
  destruct (reachable_pendingEdits getWidget gettext p t w rd Hrun Hrd) as [Hp _].
  pose proof (onValueChange_ok f v w rd Hrd Hcmd Hproto Hc Hp) as Hch.
  set (rd' := <[field_name f := js_or v (VStr "")]> rd) in *.
  set (w' := {| objects := objects w ++ [rd']; state := _; route := _; requests := _ |}) in *.
  assert (Hrd' : pendingEdits w' = Some rd') by (by apply pendingEdits_alloc).
  assert (Hget : get rd' (field_name f) = js_or v (VStr ""))
    by (unfold get, rd'; by rewrite lookup_insert_eq).
  assert (Hdef : defined (js_or v (VStr "")) = true).
  { pose proof (js_or_empty_defined v). by destruct (js_or v (VStr "")). }
  eexists w', _, _, _. split; [exact Hch|].
  split; [by apply (renderFormFields_ok getWidget w' dm rd' initial)|].
  split.
  { rewrite list_lookup_fmap, Hf. simpl. unfold renderField. by rewrite Hvis. }
  split.
  { simpl. unfold displayValue. by rewrite Hget, Hdef. }
  split; [by apply (getValues_ok getWidget w' dm rd' initial)|].
  rewrite forEach_last by done.
  assert (Hsome : is_Some (last (filter (fun g => field_name g = field_name f) (fields dm)))).
  { apply last_filter_name. apply list_elem_of_fmap_2. by eapply list_elem_of_lookup_2. }
  destruct Hsome as [g Hg]. rewrite Hg. apply last_filter_elem in Hg as [Hg Hn].
  unfold submitValue. by rewrite Hn, Hget, Hdef, (Htype g Hg Hn).
Qed.

(** X8: in every world the view can reach, [onValueChange] for a field whose
    name is neither a command of [React.addons.update] nor [__proto__],
    made while [pendingEdits.constructor] reads as [Object], changes neither
    what the form shows for the fields of another name nor what [getValues]
    holds under another name. *)
Theorem edit_leaves_other_fields (p : string) (t : list Event) (w : World)
    (dm : DataModel) (rd initial : obj) (g : Field) (v : value) :
  run getWidget gettext (mount p) t = Some w ->
  recordDataModel (state w) = Some dm ->
  pendingEdits w = Some rd ->
  recordInitialData (state w) = Some initial ->
  isCommand (field_name g) = false ->
  field_name g <> "__proto__" ->
  get rd "constructor" = VProto "constructor" ->
  exists w' form form' rv rv',
    onValueChange g v w = Ok w' /\
    renderFormFields getWidget w = Ok form /\
    renderFormFields getWidget w' = Ok form' /\
    getValues getWidget w = Ok rv /\
    getValues getWidget w' = Ok rv' /\
    (forall i f, fields dm !! i = Some f -> field_name f <> field_name g ->
       form' !! i = form !! i) /\
    (forall n, n <> field_name g -> n <> "__proto__" -> rv' !! n = rv !! n).
Proof.
  intros Hrun Hdm Hrd Hin Hcmd Hproto Hc.
  destruct (reachable_pendingEdits getWidget gettext p t w rd Hrun Hrd) as [Hp _].
  pose proof (onValueChange_ok g v w rd Hrd Hcmd Hproto Hc Hp) as Hch.
  set (rd' := <[field_name g := js_or v (VStr "")]> rd) in *.
  set (w' := {| objects := objects w ++ [rd']; state := _; route := _; requests := _ |}) in *.
  assert (Hrd' : pendingEdits w' = Some rd') by (by apply pendingEdits_alloc).
  assert (Hget : forall n, n <> field_name g -> get rd' n = get rd n)
    by (intros n Hn; unfold get, rd'; by rewrite lookup_insert_ne).
  eexists w', _, _, _, _. split; [exact Hch|].
  split; [by apply (renderFormFields_ok getWidget w dm rd initial)|].
  split; [by apply (renderFormFields_ok getWidget w' dm rd' initial)|].
  split; [by apply (getValues_ok getWidget w dm rd initial)|].
  split; [by apply (getValues_ok getWidget w' dm rd' initial)|].
  split.
  - intros i f Hf Hne. rewrite !list_lookup_fmap, Hf. simpl. f_equal.
    unfold renderField, displayValue. by rewrite (Hget _ Hne).
  - intros n Hn Hnp. rewrite !forEach_last by done.
    destruct (last _) as [f|] eqn:Hlast; [|done].
    apply last_filter_elem in Hlast as [_ Hf]. f_equal.
    unfold submitValue. rewrite Hf. by rewrite (Hget _ Hn).
Qed.

(** X9: in every world the view can reach, two edits in a row of fields
    whose names are neither commands of [React.addons.update] nor
    [__proto__] nor [constructor], made while [pendingEdits.constructor]
    reads as [Object], both return; when they are for the same name the
    pending edits are those of the second edit alone, and when they are for
    different names the pending edits do not depend on the order. *)
Theorem edits_compose (p : string) (t : list Event) (w : World) (rd : obj)
    (f g : Field) (v1 v2 : value) :
  run getWidget gettext (mount p) t = Some w ->
  pendingEdits w = Some rd ->
  get rd "constructor" = VProto "constructor" ->
  isCommand (field_name f) = false ->
  isCommand (field_name g) = false ->
  field_name f ∉ ["__proto__"; "constructor"] ->
  field_name g ∉ ["__proto__"; "constructor"] ->
  exists w1 w2 u1 u2,
    onValueChange f v1 w = Ok w1 /\ onValueChange g v2 w1 = Ok w2 /\
    onValueChange g v2 w = Ok u1 /\ onValueChange f v1 u1 = Ok u2 /\
    pendingEdits w2 =
      Some (<[field_name g := js_or v2 (VStr "")]> (<[field_name f := js_or v1 (VStr "")]> rd)) /\
    (field_name f = field_name g -> pendingEdits w2 = pendingEdits u1) /\
    (field_name f <> field_name g -> pendingEdits w2 = pendingEdits u2).
Proof.
  intros Hrun Hrd Hc Hcf Hcg Hf Hg.
  destruct (reachable_pendingEdits getWidget gettext p t w rd Hrun Hrd) as [Hp _].
  assert (Hf1 : field_name f <> "__proto__") by (intros E; apply Hf; rewrite E; set_solver).
  assert (Hf2 : field_name f <> "constructor") by (intros E; apply Hf; rewrite E; set_solver).
  assert (Hg1 : field_name g <> "__proto__") by (intros E; apply Hg; rewrite E; set_solver).
  assert (Hg2 : field_name g <> "constructor") by (intros E; apply Hg; rewrite E; set_solver).
  assert (Hkeep : forall (h : Field) (x : value) (m : obj),
            field_name h <> "__proto__" -> field_name h <> "constructor" ->
            get m "constructor" = VProto "constructor" -> m !! "__proto__" = None ->
            get (<[field_name h := x]> m) "constructor" = VProto "constructor" /\
            <[field_name h := x]> m !! "__proto__" = None).
  { intros h x m H1 H2 H3 H4. unfold get in *. by rewrite !lookup_insert_ne. }
  pose proof (onValueChange_ok f v1 w rd Hrd Hcf Hf1 Hc Hp) as Hw1.
  pose proof (onValueChange_ok g v2 w rd Hrd Hcg Hg1 Hc Hp) as Hu1.
  match type of Hw1 with _ = Ok ?x => set (w1 := x) in * end.
  match type of Hu1 with _ = Ok ?x => set (u1 := x) in * end.
  assert (Hrd1 : pendingEdits w1 = Some (<[field_name f := js_or v1 (VStr "")]> rd))
    by (by apply pendingEdits_alloc).
  assert (Hrd2 : pendingEdits u1 = Some (<[field_name g := js_or v2 (VStr "")]> rd))
    by (by apply pendingEdits_alloc).
  destruct (Hkeep f (js_or v1 (VStr "")) rd Hf1 Hf2 Hc Hp) as [Hc1 Hp1].
  destruct (Hkeep g (js_or v2 (VStr "")) rd Hg1 Hg2 Hc Hp) as [Hc2 Hp2].
  pose proof (onValueChange_ok g v2 w1 _ Hrd1 Hcg Hg1 Hc1 Hp1) as Hw2.
  pose proof (onValueChange_ok f v1 u1 _ Hrd2 Hcf Hf1 Hc2 Hp2) as Hu2.
  match type of Hw2 with _ = Ok ?x => set (w2 := x) in * end.
  match type of Hu2 with _ = Ok ?x => set (u2 := x) in * end.
  assert (Hp2' : pendingEdits w2 =
      Some (<[field_name g := js_or v2 (VStr "")]> (<[field_name f := js_or v1 (VStr "")]> rd)))
    by (by apply pendingEdits_alloc).
  assert (Hq2 : pendingEdits u2 =
      Some (<[field_name f := js_or v1 (VStr "")]> (<[field_name g := js_or v2 (VStr "")]> rd)))
    by (by apply pendingEdits_alloc).
  exists w1, w2, u1, u2. repeat (split; [done|]). split.
  - intros Heq. rewrite Hp2', Hrd2, Heq. by rewrite insert_insert_eq.
  - intros Hne. rewrite Hp2', Hq2. f_equal. by apply insert_insert_ne.
Qed.

End Submission.

Lemma getValues_keys_witness :
  exists rv,
    getValues Sample.registry Fixtures.loadedShop = Ok rv /\
    (forall n, is_Some (rv !! n) -> n ∈ field_name <$> fields (datamodel Fixtures.respShop)) /\
    (forall n, n <> "__proto__" ->
       n ∈ field_name <$> fields (datamodel Fixtures.respShop) -> is_Some (rv !! n)).
Proof.
  apply (getValues_keys Sample.registry Fixtures.loadedShop
           (datamodel Fixtures.respShop) ∅ (data Fixtures.respShop)); reflexivity.
Defined.

Lemma getValues_value_witness :
  exists rv,
    getValues Sample.registry Fixtures.editedShop = Ok rv /\
    rv !! "amount" = Some (VStr "s:7").
Proof.
  destruct (getValues_value Sample.registry Fixtures.editedShop
              (datamodel Fixtures.respShop) {[ "amount" := VStr "7" ]}
              (data Fixtures.respShop) "amount" Fixtures.amount)
    as (rv & Hrv & Hn);
    [reflexivity | reflexivity | reflexivity | discriminate | reflexivity |].
  exists rv. split; [exact Hrv | exact Hn].
Defined.

Lemma getValues_after_load_witness :
  exists rv,
    getValues Sample.registry (onLoaded Fixtures.respShop (mount "/shop")) = Ok rv /\
    rv !! "title" = Some (VStr "T") /\
    rv !! "legacy" = None.
Proof.
  destruct (getValues_after_load Sample.registry Fixtures.respShop (mount "/shop"))
    as (rv & Hrv & Hall).
  exists rv. split; [exact Hrv|]. split.
  - exact (Hall "title" eq_refl).
  - exact (Hall "legacy" eq_refl).
Defined.

Lemma edit_is_shown_and_submitted_witness :
  exists w w' form dl rv,
    run Sample.registry Fixtures.gettext (mount "/shop") [Resolve 0 Fixtures.respShop] = Some w /\
    onValueChange Fixtures.amount (VNum 0) w = Ok w' /\
    renderFormFields Sample.registry w' = Ok form /\
    form !! 1 = Some (Some dl) /\
    dl_value dl = VStr "" /\
    getValues Sample.registry w' = Ok rv /\
    rv !! "amount" = Some (VStr "s:").
Proof.
  eexists.
  destruct (edit_is_shown_and_submitted Sample.registry Fixtures.gettext "/shop"
              [Resolve 0 Fixtures.respShop] _
              (datamodel Fixtures.respShop) ∅ (data Fixtures.respShop) 1
              Fixtures.amount (VNum 0) eq_refl eq_refl eq_refl eq_refl eq_refl eq_refl eq_refl)
    as (w' & form & dl & rv & H1 & H2 & H3 & H4 & H5 & H6).
  - discriminate.
  - reflexivity.
  - intros g Hg Hn. simpl in Hg.
    apply elem_of_cons in Hg as [->|Hg]; [discriminate Hn|].
    apply elem_of_cons in Hg as [->|Hg]; [reflexivity|].
    by apply elem_of_nil in Hg.
  - exists w', form, dl, rv. split; [reflexivity|].
    repeat (split; [assumption|]). exact H6.
Defined.

Lemma edit_leaves_other_fields_witness :
  exists w w' form form' rv rv',
    run Sample.registry Fixtures.gettext (mount "/shop") [Resolve 0 Fixtures.respShop] = Some w /\
    onValueChange Fixtures.amount (VStr "7") w = Ok w' /\
    renderFormFields Sample.registry w = Ok form /\
    renderFormFields Sample.registry w' = Ok form' /\
    getValues Sample.registry w = Ok rv /\
    getValues Sample.registry w' = Ok rv' /\
    form' !! 0 = form !! 0 /\
    rv' !! "title" = rv !! "title".
Proof.
  eexists.
  destruct (edit_leaves_other_fields Sample.registry Fixtures.gettext "/shop"
              [Resolve 0 Fixtures.respShop] _
              (datamodel Fixtures.respShop) ∅ (data Fixtures.respShop)
              Fixtures.amount (VStr "7") eq_refl eq_refl eq_refl eq_refl eq_refl)
    as (w' & form & form' & rv & rv' & H1 & H2 & H3 & H4 & H5 & H6 & H7).
  - discriminate.
  - reflexivity.
  - exists w', form, form', rv, rv'. split; [reflexivity|].
    repeat (split; [assumption|]). split.
    + apply (H6 0 Sample.title eq_refl). discriminate.
    + apply H7; discriminate.
Defined.

Lemma edits_compose_witness :
  exists w w1 w2 u1 u2,
    run Sample.registry Fixtures.gettext (mount "/shop") [Resolve 0 Fixtures.respShop] = Some w /\
    onValueChange Sample.title (VStr "a") w = Ok w1 /\
    onValueChange Fixtures.amount (VStr "7") w1 = Ok w2 /\
    onValueChange Fixtures.amount (VStr "7") w = Ok u1 /\
    onValueChange Sample.title (VStr "a") u1 = Ok u2 /\
    pendingEdits w2 = pendingEdits u2.
Proof.
  eexists.
  destruct (edits_compose Sample.registry Fixtures.gettext "/shop"
              [Resolve 0 Fixtures.respShop] _ ∅ Sample.title Fixtures.amount
              (VStr "a") (VStr "7") eq_refl eq_refl eq_refl eq_refl eq_refl)
    as (w1 & w2 & u1 & u2 & H1 & H2 & H3 & H4 & _ & _ & Hne).
  - simpl. intros H. repeat (apply elem_of_cons in H as [H|H]; [discriminate H|]).
    by apply elem_of_nil in H.
  - simpl. intros H. repeat (apply elem_of_cons in H as [H|H]; [discriminate H|]).
    by apply elem_of_nil in H.
  - exists w1, w2, u1, u2. split; [reflexivity|]. repeat (split; [assumption|]).
    apply Hne. discriminate.
Defined.

(** *** What the events change *)

Section Events.

Variable getWidget : string -> Widget.
Variable gettext : string -> string.

(** X10: the initial data, the data model and the record info of the state
    change only when a response is applied: new props, rejected loads and
    edits leave all three, and so the label of the heading, as they are. *)
Theorem record_state_changes_on_response_only (t : list Event) (w w' : World) :
  run getWidget gettext w t = Some w' ->
  existsb is_resolve t = false ->
  recordInitialData (state w') = recordInitialData (state w) /\
  recordDataModel (state w') = recordDataModel (state w) /\
  recordInfo (state w') = recordInfo (state w) /\
  getLabel (state w') = getLabel (state w).
Proof.
  intros Hrun Ht.
  destruct (run_keeps_record getWidget gettext t w w' Hrun Ht) as (H1 & H2 & H3).
  unfold getLabel. rewrite H3. done.
Qed.

Lemma expandReplacement_plain (matched before after r : string) :
  hasDollar r = false -> expandReplacement matched before after r = r.
Proof.
  induction r as [|c r IH]; [done|]. simpl.
  intros [Hc Hr]%orb_false_elim. rewrite Hc. f_equal. auto.
Qed.

Lemma prefix_dropChars (pat s : string) :
  String.prefix pat s = true -> s = pat +:+ dropChars (String.length pat) s.
Proof.
  revert pat. induction s as [|c s IH]; intros [|a pat]; simpl; try done.
  destruct (Ascii.ascii_dec a c) as [->|_]; [|discriminate].
  intros Hp. change (String c s = String c (pat +:+ dropChars (String.length pat) s)).
  f_equal. by apply IH.
Qed.

(** The pattern stands between the two parts that [splitFirst] returns. *)
Lemma splitFirst_Some (pat s before after : string) :
  splitFirst pat s = Some (before, after) -> s = before +:+ pat +:+ after.
Proof.
  revert before. induction s as [|c s IH]; intros before.
  - cbn [splitFirst]. destruct (String.prefix pat "") eqn:Hp; [|discriminate].
    intros [= <- <-]. by apply prefix_dropChars in Hp.
  - cbn [splitFirst]. destruct (String.prefix pat (String c s)) eqn:Hp.
    + intros [= <- <-]. by apply prefix_dropChars in Hp.
    + destruct (splitFirst pat s) as [[b a]|]; [|discriminate].
      intros [= <- <-]. change (String c s = String c (b +:+ pat +:+ a)).
      f_equal. by apply IH.
Qed.

(** X11: in a world reached by applying a response and then any events that
    apply no other response, [render] returns a page, never [null]; when the
    label of that response's record, or its id when the record does not
    exist, has no dollar sign in it, the heading is the translation of
    [Edit “%s”] with that text in the place of its first [%s], and the
    translation itself when it has no [%s]. *)
Theorem heading_of_last_response (p : string) (t1 t2 : list Event) (i : nat)
    (resp : Response) (w : World) :
  run getWidget gettext (mount p) (t1 ++ Resolve i resp :: t2) = Some w ->
  existsb is_resolve t2 = false ->
  hasDollar (if ri_exists (record_info resp)
             then ri_label (record_info resp) else ri_id (record_info resp)) = false ->
  exists page,
    render getWidget gettext w = Ok (Some page) /\
    match splitFirst "%s" (gettext "Edit “%s”") with
    | Some (before, after) =>
        gettext "Edit “%s”" = before +:+ "%s" +:+ after /\
        page_heading page =
          before +:+ (if ri_exists (record_info resp)
                      then ri_label (record_info resp) else ri_id (record_info resp))
                 +:+ after
    | None => page_heading page = gettext "Edit “%s”"
    end.
Proof.
  intros Hrun Ht2 Hplain.
  destruct (run_last_response getWidget gettext p t1 t2 i resp w Hrun Ht2)
    as [Hl (R1 & R2 & R3)].
  apply loaded_pendingEdits in Hl as (initial & rd & dm & ri & Hin & Hrd & Hdm & Hri & _).
  eexists. split.
  { unfold render. rewrite Hri.
    by rewrite (renderFormFields_ok getWidget w dm rd initial Hdm Hrd Hin). }
  simpl. unfold heading, getLabel, replaceFirst. rewrite R3.
  destruct (splitFirst "%s" (gettext "Edit “%s”")) as [[before after]|] eqn:Hsplit; [|done].
  split; [by apply splitFirst_Some|].
  destruct (ri_exists (record_info resp)); by rewrite expandReplacement_plain.
Qed.

(** X12: in every world the view can reach, [getValues] and
    [renderFormFields] throw a TypeError exactly as long as no response has
    been applied (they read [fields] of a data model that is [null]);
    afterwards both return. *)
Theorem getValues_needs_record (p : string) (t : list Event) (w : World) :
  run getWidget gettext (mount p) t = Some w ->
  (getValues getWidget w = TypeError <-> existsb is_resolve t = false) /\
  (renderFormFields getWidget w = TypeError <-> existsb is_resolve t = false) /\
  (existsb is_resolve t = true ->
     exists rv form,
       getValues getWidget w = Ok rv /\ renderFormFields getWidget w = Ok form).
Proof.
  intros Hrun. pose proof (run_trace getWidget gettext t (mount p) w eq_refl Hrun) as Hw.
  destruct (existsb is_resolve t).
  - apply loaded_pendingEdits in Hw as (initial & rd & dm & ri & Hin & Hrd & Hdm & _).
    unfold getValues, renderFormFields. rewrite Hin, Hrd, Hdm.
    split; [split; discriminate|]. split; [split; discriminate|]. eauto.
  - unfold getValues, renderFormFields. rewrite Hw. simpl.
    split; [done|]. split; [done|]. discriminate.
Qed.

Lemma settle_paths (i : nat) (w w' : World) :
  settle i w = Some w' -> req_path <$> requests w' = req_path <$> requests w.
Proof.
  unfold settle. destruct (requests w !! i) as [r|] eqn:Hr; [|discriminate].
  destruct (req_settled r); [discriminate|]. intros [= <-]. simpl.
  rewrite list_fmap_insert. simpl. apply list_insert_id.
  by rewrite list_lookup_fmap, Hr.
Qed.

Lemma step_paths (w w' : World) (e : Event) :
  step getWidget gettext w e = Some w' ->
  req_path <$> requests w' = (req_path <$> requests w) ++ propsPaths [e] /\
  route w' = default (route w) (last (propsPaths [e])).
Proof.
  destruct e as [p|i resp|i|f v].
  - simpl. intros [= <-]. simpl. by rewrite fmap_app.
  - simpl. destruct (settle i w) as [w0|] eqn:Hs; [|discriminate]. simpl. intros [= <-].
    rewrite app_nil_r. simpl. split; [by eapply settle_paths|].
    by apply settle_frame in Hs as (_ & _ & ->).
  - simpl. intros Hs. rewrite app_nil_r. split; [by eapply settle_paths|].
    by apply settle_frame in Hs as (_ & _ & ->).
  - intros [_ [Hch| ->]]%step_change; simpl; rewrite app_nil_r; [|done].
    by apply onValueChange_record in Hch as (_ & _ & _ & -> & ->).
Qed.

Lemma propsPaths_cons (e : Event) (t : list Event) :
  propsPaths (e :: t) = propsPaths [e] ++ propsPaths t.
Proof. by destruct e. Qed.

Lemma run_paths (t : list Event) (w w' : World) :
  run getWidget gettext w t = Some w' ->
  req_path <$> requests w' = (req_path <$> requests w) ++ propsPaths t /\
  route w' = default (route w) (last (propsPaths t)).
Proof.
  revert w. induction t as [|e t IH]; intros w; cbn [run].
  - intros [= <-]. by rewrite app_nil_r.
  - destruct (step getWidget gettext w e) as [w1|] eqn:He; [|discriminate].
    intros Hrun. destruct (IH w1 Hrun) as [Hp Hr].
    destruct (step_paths w w1 e He) as [Hp1 Hr1].
    rewrite (propsPaths_cons e t), last_app.
    rewrite Hp, Hp1, Hr, Hr1, <- app_assoc. split; [done|].
    by destruct (last (propsPaths t)).
Qed.

(** X13: the loads issued up to any point are one for the path of the mount
    and one for each props update, in that order, whether the path changed
    or not; edits and settled loads issue none, and the last load issued is
    always for the current record path. *)
Theorem loads_issued (p : string) (t : list Event) (w : World) :
  run getWidget gettext (mount p) t = Some w ->
  req_path <$> requests w = p :: propsPaths t /\
  route w = default p (last (propsPaths t)) /\
  last (req_path <$> requests w) = Some (route w).
Proof.
  intros Hrun. destruct (run_paths t (mount p) w Hrun) as [Hp Hr].
  simpl in Hp, Hr. split; [done|]. split; [done|].
  rewrite Hp, Hr. change (p :: propsPaths t) with ([p] ++ propsPaths t).
  rewrite last_app. by destruct (last (propsPaths t)).
Qed.

End Events.

Lemma record_state_changes_on_response_only_witness :
  exists w',
    run Sample.registry Fixtures.gettext Fixtures.loadedShop
      [Change Fixtures.amount (VStr "7"); ReceiveProps "/other"; Reject 1] = Some w' /\
    recordInitialData (state w') = recordInitialData (state Fixtures.loadedShop) /\
    recordDataModel (state w') = recordDataModel (state Fixtures.loadedShop) /\
    recordInfo (state w') = recordInfo (state Fixtures.loadedShop) /\
    getLabel (state w') = getLabel (state Fixtures.loadedShop).
Proof.
  eexists. split; [reflexivity|].
  apply (record_state_changes_on_response_only Sample.registry Fixtures.gettext
           [Change Fixtures.amount (VStr "7"); ReceiveProps "/other"; Reject 1]
           Fixtures.loadedShop); reflexivity.
Defined.

Lemma heading_of_last_response_witness :
  exists w page,
    run Sample.registry Fixtures.gettext (mount "/shop")
      ([ReceiveProps "/shop"] ++
       Resolve 1 Fixtures.respShop :: [Change Fixtures.amount (VStr "7"); Reject 0])
      = Some w /\
    render Sample.registry Fixtures.gettext w = Ok (Some page) /\
    page_heading page = "Edit “shop”".
Proof.
  eexists.
  destruct (heading_of_last_response Sample.registry Fixtures.gettext "/shop"
              [ReceiveProps "/shop"]
              [Change Fixtures.amount (VStr "7"); Reject 0] 1 Fixtures.respShop _
              eq_refl eq_refl eq_refl)
    as (page & Hpage & _ & Hheading).
  exists page. split; [reflexivity|]. split; [exact Hpage | exact Hheading].
Defined.

Lemma getValues_needs_record_witness :
  exists w,
    run Sample.registry Fixtures.gettext (mount "/a") [ReceiveProps "/a"; Reject 0] = Some w /\
    getValues Sample.registry w = TypeError.
Proof.
  eexists. split; [reflexivity|].
  apply (getValues_needs_record Sample.registry Fixtures.gettext "/a"
           [ReceiveProps "/a"; Reject 0] _ eq_refl).
  reflexivity.
Defined.

Lemma loads_issued_witness :
  exists w,
    run Sample.registry Fixtures.gettext (mount "/a")
      [ReceiveProps "/a"; Resolve 0 Sample.respA; ReceiveProps "/b"] = Some w /\
    req_path <$> requests w = ["/a"; "/a"; "/b"] /\
    route w = "/b".
Proof.
  eexists.
  destruct (loads_issued Sample.registry Fixtures.gettext "/a"
              [ReceiveProps "/a"; Resolve 0 Sample.respA; ReceiveProps "/b"] _ eq_refl)
    as (Hp & Hr & _).
  split; [reflexivity|]. split; [exact Hp | exact Hr].
Defined.

End EditPageMore.

(** ** Further properties of the breadcrumbs *)

Module BreadCrumbsMore.

Import BreadCrumbs BreadCrumbsFacts.

Section Render.

Variable getUrlRecordPathWithAlt : string -> string.
Variable isRecordPreviewActive : bool.
Variable trans : string -> string.
Variable children : list nat.
Variable getCanonicalUrl : string -> string.
Variable url_path : Segment -> string.
Variable admin_root : string.

Lemma trail_loaded (st : State) (info : PathInfo) :
  recordPathInfo st = Some info ->
  crumbsAndLast getUrlRecordPathWithAlt isRecordPreviewActive trans st
  = (crumb getUrlRecordPathWithAlt isRecordPreviewActive <$> segments info,
     last (segments info)).
Proof. intros H. unfold crumbsAndLast. rewrite H. apply mapSegments_map. Qed.

(** X14: with path info loaded, the crumb at position [i] of the trail is
    the one of segment [i]: keyed by the segment's path, linking to the
    preview when the preview is active and to the editor otherwise, with the
    alt-qualified path; a segment that exists shows its label, one that does
    not shows its id and is marked [missing-record-crumb]. *)
Theorem crumb_of_segment (st : State) (info : PathInfo) (i : nat) (s : Segment) :
  recordPathInfo st = Some info ->
  segments info !! i = Some s ->
  trail getUrlRecordPathWithAlt isRecordPreviewActive trans st !! i =
    Some (Li (Some (seg_path s))
             (Some (if seg_exists s then "record-crumb"
                    else "record-crumb missing-record-crumb"))
             (mkLink (if isRecordPreviewActive then "preview" else "edit")
                     (Some (getUrlRecordPathWithAlt (seg_path s)))
                     (if seg_exists s then seg_label s else seg_id s))).
Proof.
  intros Hinfo Hs. unfold trail. rewrite (trail_loaded st info Hinfo). simpl.
  rewrite list_lookup_fmap, Hs. simpl. unfold crumb, target.
  by destruct (seg_exists s).
Qed.

(** X15: without a last segment, that is with no path info or with an empty
    list of segments, no add-child entry is rendered. *)
Theorem no_add_child_without_segment (st : State) :
  (forall info, recordPathInfo st = Some info -> segments info = []) ->
  List.filter isAddChild
    (render getUrlRecordPathWithAlt isRecordPreviewActive trans children st) = [].
Proof.
  intros Hempty. unfold render, crumbsAndLast.
  destruct (recordPathInfo st) as [info|].
  - rewrite (Hempty info eq_refl). simpl.
    rewrite !List.filter_app, filter_children. done.
  - rewrite !List.filter_app, filter_children. done.
Qed.

Lemma render_nodes (st : State) (n : Node) :
  n ∈ render getUrlRecordPathWithAlt isRecordPreviewActive trans children st ->
  (exists c, n = Child c) \/
  n ∈ trail getUrlRecordPathWithAlt isRecordPreviewActive trans st \/
  n ∈ newRecordCrumb getUrlRecordPathWithAlt
        (snd (crumbsAndLast getUrlRecordPathWithAlt isRecordPreviewActive trans st)) \/
  n = Text " " \/
  n = Meta (mkLink "publish" None (trans "PUBLISH")) (trans "RETURN_TO_WEBSITE").
Proof.
  unfold render, trail.
  destruct (crumbsAndLast _ _ _ st) as [crumbs lastItem]. simpl.
  rewrite !elem_of_app, !elem_of_cons, elem_of_nil.
  intros [(c & -> & _)%list_elem_of_fmap|[?|[?|[?|[?|[]]]]]]; eauto 10.
Qed.

(** X16: every link of a list item of the breadcrumbs (a crumb, the fallback
    or the add-child entry) names a route that [main.jsx] declares, in any
    state; the [publish] link of the meta item, which is always rendered,
    names one that it does not declare. *)
Theorem links_and_routes (st : State) :
  (forall key className l,
     Li key className l ∈ render getUrlRecordPathWithAlt isRecordPreviewActive trans children st ->
     to l ∈ Main.routeNames (Main.routes admin_root)) /\
  (exists publish close,
     Meta publish close ∈
       render getUrlRecordPathWithAlt isRecordPreviewActive trans children st /\
     to publish = "publish" /\
     to publish ∉ Main.routeNames (Main.routes admin_root)).
Proof.
  split.
  - intros key className l Hin.
    apply render_nodes in Hin as [[c Hc]|[Htrail|[Hnew|[Ht|Hm]]]];
      [discriminate Hc | | | discriminate Ht | discriminate Hm].
    + unfold trail, crumbsAndLast in Htrail.
      destruct (recordPathInfo st) as [info|].
      * rewrite mapSegments_map in Htrail. simpl in Htrail.
        apply list_elem_of_fmap in Htrail as (s & Hs & _).
        unfold crumb, target in Hs. simpl.
        destruct (negb (seg_exists s)); injection Hs as _ _ ->; simpl;
          destruct isRecordPreviewActive; set_solver.
      * simpl in Htrail. apply elem_of_cons in Htrail as [Hf|Hf%elem_of_nil]; [|done].
        injection Hf as _ _ ->. simpl. set_solver.
    + unfold newRecordCrumb in Hnew.
      destruct (snd _) as [s|]; [|by apply elem_of_nil in Hnew].
      destruct (seg_can_have_children s); [|by apply elem_of_nil in Hnew].
      apply elem_of_cons in Hnew as [Hf|Hf%elem_of_nil]; [|done].
      injection Hf as _ _ ->. simpl. set_solver.
  - exists (mkLink "publish" None (trans "PUBLISH")), (trans "RETURN_TO_WEBSITE").
    split; [|split; [reflexivity|]].
    + unfold render. destruct (crumbsAndLast _ _ _ st) as [crumbs lastItem].
      rewrite !elem_of_app. right. right. right.
      apply elem_of_cons. right. apply elem_of_cons. by left.
    + simpl. intros H.
      repeat (apply elem_of_cons in H as [H|H]; [discriminate H|]).
      by apply elem_of_nil in H.
Qed.

(** X17: a click on the link back to the website throws a TypeError when no
    path info is loaded; follows the anchor's own [href] when the list of
    segments is empty; and otherwise assigns the canonical URL of the last
    segment's [url_path] to the location and prevents the default action.
    That segment is the [lastItem] of [render], the one the add-child entry
    is for. *)
Theorem onCloseClick_cases (st : State) :
  (recordPathInfo st = None ->
     onCloseClick getCanonicalUrl url_path st = TypeError) /\
  (forall info, recordPathInfo st = Some info -> segments info = [] ->
     onCloseClick getCanonicalUrl url_path st = Ok FollowHref) /\
  (forall info s, recordPathInfo st = Some info -> last (segments info) = Some s ->
     onCloseClick getCanonicalUrl url_path st
       = Ok (Navigate (getCanonicalUrl (url_path s))) /\
     snd (crumbsAndLast getUrlRecordPathWithAlt isRecordPreviewActive trans st) = Some s).
Proof.
  unfold onCloseClick. split; [by intros ->|]. split.
  - by intros info -> ->.
  - intros info s Hinfo Hlast. rewrite (trail_loaded st info Hinfo), Hinfo. simpl.
    split; [|done]. rewrite last_lookup in Hlast.
    destruct (segments info) as [|s0 segs]; [discriminate Hlast|].
    simpl in *. by rewrite Nat.sub_0_r, Hlast.
Qed.

End Render.

Lemma crumb_of_segment_witness :
  trail (fun p => p +:+ "+de") true (fun k => k)
    (onPathInfo "/blog/post" [Sample.root; Sample.blog; Sample.post] initialState) !! 2
  = Some (Li (Some "/blog/post") (Some "record-crumb missing-record-crumb")
             (mkLink "preview" (Some "/blog/post+de") "post")).
Proof.
  apply (crumb_of_segment (fun p => p +:+ "+de") true (fun k => k)
           (onPathInfo "/blog/post" [Sample.root; Sample.blog; Sample.post] initialState)
           (mkPathInfo "/blog/post" [Sample.root; Sample.blog; Sample.post]) 2 Sample.post);
    reflexivity.
Defined.

Lemma no_add_child_without_segment_witness :
  List.filter isAddChild
    (render (fun p => p +:+ "+de") false (fun k => k) [0; 1] (onPathInfo "/" [] initialState))
  = [].
Proof.
  apply (no_add_child_without_segment (fun p => p +:+ "+de") false (fun k => k) [0; 1]
           (onPathInfo "/" [] initialState)).
  intros info Hinfo. injection Hinfo as <-. reflexivity.
Defined.

Lemma onCloseClick_cases_witness :
  onCloseClick (fun u => "http://localhost" +:+ u) (fun s => seg_path s +:+ "/")
    (onPathInfo "/blog" [Sample.root; Sample.blog] initialState)
  = Ok (Navigate "http://localhost/blog/").
Proof.
  apply (onCloseClick_cases (fun p => p +:+ "+de") false (fun k => k)
           (fun u => "http://localhost" +:+ u) (fun s => seg_path s +:+ "/")
           (onPathInfo "/blog" [Sample.root; Sample.blog] initialState))
    with (info := mkPathInfo "/blog" [Sample.root; Sample.blog]) (s := Sample.blog);
    reflexivity.
Defined.

(** *** The life cycle *)

Section LifeCycle.

Variable getUrlRecordPathWithAlt : string -> string.
Variable isRecordPreviewActive : bool.
Variable trans : string -> string.
Variable children : list nat.



Lemma hostStep_initial (h h' : Host) (e : HostEvent) :
  host_state h = initialState ->
  is_pathInfoLoaded e = false ->
  hostStep h e = Some h' ->
  host_state h' = initialState.
Proof.
  intros Hh. destruct e as [[p|]|i segs|i]; try discriminate; intros _; simpl.
  - by intros [= <-].
  - by intros [= <-].
  - destruct (host_loads h !! i) as [l|]; [|discriminate].
    destruct (load_settled l); [discriminate|]. by intros [= <-].
Qed.

(** X19: from the mount until the first response is applied, whatever the
    props and however many loads fail, the trail is the single fallback link
    with target ["edit"] and path ["root"], in preview mode too, and there
    is no add-child entry. *)
Theorem fallback_until_first_path_info (recordPath : option string)
    (t : list HostEvent) (h : Host) :
  hostRun (mounted recordPath) t = Some h ->
  existsb is_pathInfoLoaded t = false ->
  trail getUrlRecordPathWithAlt isRecordPreviewActive trans (host_state h)
  = [Li None None (mkLink "edit" (Some "root") (trans "BACK_TO_OVERVIEW"))] /\
  List.filter isAddChild
    (render getUrlRecordPathWithAlt isRecordPreviewActive trans children (host_state h)) = [].
Proof.
  intros Hrun Ht.
  assert (Hinit : host_state h = initialState).
  { assert (H0 : host_state (mounted recordPath) = initialState) by (by destruct recordPath).
    revert Hrun Ht H0. generalize (mounted recordPath).
    induction t as [|e t IH]; intros h0; simpl.
    - intros [= <-]. done.
    - destruct (hostStep h0 e) as [h1|] eqn:He; [|discriminate].
      intros Hrun [He' Ht]%orb_false_elim H0.
      apply (IH h1 Hrun Ht). by eapply hostStep_initial. }
  rewrite Hinit. split; [done|].
  unfold render. simpl. rewrite !List.filter_app, filter_children. done.
Qed.

Lemma hostStep_paths (h h' : Host) (e : HostEvent) :
  hostStep h e = Some h' ->
  load_path <$> host_loads h' = (load_path <$> host_loads h) ++ propsRecordPaths [e].
Proof.
  destruct e as [[p|]|i segs|i]; simpl.
  - intros [= <-]. simpl. by rewrite fmap_app.
  - intros [= <-]. simpl. by rewrite !app_nil_r.
  - destruct (host_loads h !! i) as [l|] eqn:Hl; [|discriminate].
    destruct (load_settled l); [discriminate|]. intros [= <-]. simpl.
    rewrite app_nil_r, list_fmap_insert. simpl. apply list_insert_id.
    by rewrite list_lookup_fmap, Hl.
  - destruct (host_loads h !! i) as [l|] eqn:Hl; [|discriminate].
    destruct (load_settled l); [discriminate|]. intros [= <-]. simpl.
    rewrite app_nil_r, list_fmap_insert. simpl. apply list_insert_id.
    by rewrite list_lookup_fmap, Hl.
Qed.

Lemma propsRecordPaths_cons (e : HostEvent) (t : list HostEvent) :
  propsRecordPaths (e :: t) = propsRecordPaths [e] ++ propsRecordPaths t.
Proof. by destruct e as [[p|]|i segs|i]. Qed.

Lemma hostRun_paths (t : list HostEvent) (h h' : Host) :
  hostRun h t = Some h' ->
  load_path <$> host_loads h' = (load_path <$> host_loads h) ++ propsRecordPaths t.
Proof.
  revert h. induction t as [|e t IH]; intros h; cbn [hostRun].
  - intros [= <-]. by rewrite app_nil_r.
  - destruct (hostStep h e) as [h1|] eqn:He; [|discriminate].
    intros Hrun. rewrite (IH h1 Hrun), (hostStep_paths h h1 e He).
    by rewrite (propsRecordPaths_cons e t), <- app_assoc.
Qed.

(** X20: the loads of [/pathinfo] issued up to any point are one for the
    record path of the mount and one for each props update, in order, each
    only when the record path is not [null]: with no record path nothing is
    loaded. *)
Theorem path_info_loads_issued (recordPath : option string) (t : list HostEvent) (h : Host) :
  hostRun (mounted recordPath) t = Some h ->
  load_path <$> host_loads h =
    match recordPath with Some p => [p] | None => [] end ++ propsRecordPaths t.
Proof.
  intros Hrun. rewrite (hostRun_paths t _ h Hrun). by destruct recordPath.
Qed.

End LifeCycle.


Lemma fallback_until_first_path_info_witness :
  exists h,
    hostRun (mounted (Some "/blog")) [PathInfoFailed 0; NewProps None] = Some h /\
    trail (fun p => p +:+ "+de") true (fun k => k) (host_state h)
    = [Li None None (mkLink "edit" (Some "root") "BACK_TO_OVERVIEW")].
Proof.
  eexists. split; [reflexivity|].
  apply (fallback_until_first_path_info (fun p => p +:+ "+de") true (fun k => k) []
           (Some "/blog") [PathInfoFailed 0; NewProps None]); reflexivity.
Defined.

Lemma path_info_loads_issued_witness :
  exists h,
    hostRun (mounted None)
      [NewProps (Some "/blog"); NewProps None; NewProps (Some "/blog")] = Some h /\
    load_path <$> host_loads h = ["/blog"; "/blog"].
Proof.
  eexists. split; [reflexivity|].
  apply (path_info_loads_issued None
           [NewProps (Some "/blog"); NewProps None; NewProps (Some "/blog")]).
  reflexivity.
Defined.

End BreadCrumbsMore.
